(** * madmom.ml.nn: prediction averaging, networks and network ensembles

    A shallow embedding of [madmom/ml/nn/__init__.py]:

    - [average_predictions], the combiner of an ensemble's predictions;
    - [NeuralNetwork.process] and [NeuralNetwork.reset];
    - [NeuralNetworkEnsemble], a [SequentialProcessor] made of a
      [ParallelProcessor] over the member networks and the combiner.

    The module computes with numpy arrays of floating-point numbers.  The
    embedding is parametric in the scalar arithmetic (class [Scalar]); the
    instance [Float64.float64] is IEEE 754 binary64, numpy's default dtype,
    given by Rocq's primitive floats.

    Conventions of the embedding:

    - an array is its shape and its elements in row-major order; all arrays
      have one floating dtype;
    - a numpy scalar (np.float64) is a value of its own, not an array: numpy
      returns one wherever the result of an operation is 0-d, and iterating
      a 1-d array yields them;
    - Python values are [None], strings, integers, arrays, numpy scalars,
      tuples and lists; an expression returns, raises, or is outside the
      embedded fragment;
    - layers are collaborators with private state: a layer object occurs
      once in a network, and a network once in an ensemble, so that a call
      changes the state of the called layer only;
    - what a network does to its layers is observable as the list of the
      calls it made. *)

From Stdlib Require Import String Floats ZArith Arith Bool Lia List Permutation.
Import ListNotations.

Set Implicit Arguments.
#[local] Set Warnings "-inexact-float,-register-all".

(** ** Scalars *)

(** The arithmetic of an array's dtype: conversion of a Python [int] operand
    (numpy promotes it to the dtype of the array), addition and true
    division.  [int_fits z] tells whether the integer [z] is within the
    range of the dtype; converting one that is not raises OverflowError.
    Zero always is. *)
Class Scalar (F : Type) : Type := {
  of_int : Z -> F;
  int_fits : Z -> bool;
  fadd : F -> F -> F;
  fdiv : F -> F -> F;
  int_fits_0 : int_fits 0 = true
}.

(** ** Python exceptions and outcomes *)

Inductive exn : Type :=
| IndexError
| TypeError
| ValueError
| AttributeError
| ZeroDivisionError
| OverflowError
| OtherError (name : string).   (* any exception class unrelated to the above *)

(** The outcome of evaluating a Python expression.  [Unmodelled] marks the
    operand combinations whose semantics is outside the fragment embedded
    here (numpy coercing a non-numeric Python object to an object array,
    Python's own [float]); nothing is claimed about them. *)
Inductive outcome (A : Type) : Type :=
| Ret (v : A)
| Raise (e : exn)
| Unmodelled.

Arguments Ret {A} v.
Arguments Raise {A} e.
Arguments Unmodelled {A}.

Definition bind {A B} (m : outcome A) (k : A -> outcome B) : outcome B :=
  match m with
  | Ret v => k v
  | Raise e => Raise e
  | Unmodelled => Unmodelled
  end.

Notation "x <- m ;; k" := (bind m (fun x => k))
  (at level 61, m at next level, right associativity).

Fixpoint mapM {A B} (f : A -> outcome B) (l : list A) : outcome (list B) :=
  match l with
  | [] => Ret []
  | x :: rest => y <- f x ;; ys <- mapM f rest ;; Ret (y :: ys)
  end.

(** [try: body  except <handled>: handler] *)
Definition try_except {A} (body : outcome A) (handled : exn -> bool)
    (handler : outcome A) : outcome A :=
  match body with
  | Raise e => if handled e then handler else Raise e
  | o => o
  end.

Definition is_AttributeError (e : exn) : bool :=
  match e with AttributeError => true | _ => false end.

(** ** Generic list helpers *)

Fixpoint zip_with {A B C} (f : A -> B -> C) (xs : list A) (ys : list B)
    : list C :=
  match xs, ys with
  | x :: xs', y :: ys' => f x y :: zip_with f xs' ys'
  | _, _ => []
  end.

(** Block [i] of [xs] cut into consecutive blocks of [k] elements. *)
Definition block {A} (k i : nat) (xs : list A) : list A :=
  firstn k (skipn (i * k) xs).

(** One step of [zip]: the next item of every iterator, or [None] as soon as
    one of them is exhausted. *)
Fixpoint uncons_all {A} (rows : list (list A))
    : option (list A * list (list A)) :=
  match rows with
  | [] => Some ([], [])
  | r :: rest =>
      match r, uncons_all rest with
      | x :: r', Some (hs, ts) => Some (x :: hs, r' :: ts)
      | _, _ => None
      end
  end.

Fixpoint zip_star {A} (fuel : nat) (rows : list (list A)) : list (list A) :=
  match fuel with
  | O => []
  | S fuel' =>
      match uncons_all rows with
      | Some (hs, ts) => hs :: zip_star fuel' ts
      | None => []
      end
  end.

(** [list(zip( *rows ))]: the transpose, cut at the shortest row.  The first
    row's length bounds the number of steps; [zip()] of nothing is empty. *)
Definition zip_rows {A} (rows : list (list A)) : list (list A) :=
  match rows with
  | [] => []
  | r :: _ => zip_star (length r) rows
  end.

Section WithScalar.

Context {F : Type} {scalar : Scalar F}.

(** ** numpy arrays *)

(** An n-dimensional array: its shape and its elements in row-major (C)
    order.  A 0-d array has the empty shape and one element; it is an
    ndarray, unlike a numpy scalar. *)
Record ndarray : Type := mk_ndarray {
  shape : list nat;
  data : list F
}.

Definition size_of (s : list nat) : nat := fold_right Nat.mul 1 s.

Definition ndim (a : ndarray) : nat := length (shape a).

(** The invariant numpy maintains: as many elements as the shape says. *)
Definition wf_array (a : ndarray) : Prop :=
  length (data a) = size_of (shape a).

Definition map_array (f : F -> F) (a : ndarray) : ndarray :=
  mk_ndarray (shape a) (map f (data a)).

(** [a.squeeze()]: the axes of length one are removed. *)
Definition squeeze (a : ndarray) : ndarray :=
  mk_ndarray (filter (fun d => negb (d =? 1)) (shape a)) (data a).

(** [np.array(a, subok=True, copy=False, ndmin=2)]: ones are prepended to the
    shape until it has two axes; the elements are shared, not copied. *)
Definition np_array_ndmin2 (a : ndarray) : ndarray :=
  mk_ndarray (repeat 1 (2 - ndim a) ++ shape a) (data a).

(** Broadcasting.  Shapes are aligned on their last axis; two lengths are
    compatible when they are equal or one of them is one. *)
Fixpoint broadcast_rev (s t : list nat) : option (list nat) :=
  match s, t with
  | [], _ => Some t
  | _, [] => Some s
  | d :: s', e :: t' =>
      match broadcast_rev s' t' with
      | None => None
      | Some r =>
          if d =? e then Some (d :: r)
          else if d =? 1 then Some (e :: r)
          else if e =? 1 then Some (d :: r)
          else None
      end
  end.

Definition broadcast_shapes (s t : list nat) : option (list nat) :=
  option_map (@rev nat) (broadcast_rev (rev s) (rev t)).

Definition pad_shape (n : nat) (s : list nat) : list nat :=
  repeat 1 (n - length s) ++ s.

(** The elements of an array of shape [s] broadcast to shape [t] (of the same
    number of axes): an axis of length one is repeated, any other is kept. *)
Fixpoint expand (s t : list nat) (xs : list F) : list F :=
  match s, t with
  | d :: s', n :: t' =>
      if d =? n
      then flat_map (fun i => expand s' t' (block (size_of s') i xs)) (seq 0 d)
      else concat (repeat (expand s' t' xs) n)
  | _, _ => xs
  end.

Definition broadcast_to (t : list nat) (a : ndarray) : list F :=
  expand (pad_shape (length t) (shape a)) t (data a).

(** An elementwise binary ufunc on two arrays. *)
Definition np_binop (f : F -> F -> F) (a b : ndarray) : outcome ndarray :=
  match broadcast_shapes (shape a) (shape b) with
  | None => Raise ValueError
  | Some t => Ret (mk_ndarray t (zip_with f (broadcast_to t a) (broadcast_to t b)))
  end.

(** The sub-arrays along the first axis, as iteration yields them. *)
Definition np_rows (n : nat) (s : list nat) (xs : list F) : list ndarray :=
  map (fun i => mk_ndarray s (block (size_of s) i xs)) (seq 0 n).

(** ** Python values *)

Inductive pyval : Type :=
| PyNone
| PyStr (s : string)
| PyInt (z : Z)
| PyArr (a : ndarray)
| PyScalar (x : F)
| PyTuple (items : list pyval)
| PyList (items : list pyval).

(** What numpy returns for the array [a] computed by an operation: the array,
    or a numpy scalar when the result is 0-d. *)
Definition np_return (a : ndarray) : pyval :=
  match shape a, data a with
  | [], [x] => PyScalar x
  | _, _ => PyArr a
  end.

(** The operand of a numpy operation: an array, or a numpy scalar taken as
    the 0-d array of its value. *)
Definition np_operand (v : pyval) : option ndarray :=
  match v with
  | PyArr a => Some a
  | PyScalar x => Some (mk_ndarray [] [x])
  | _ => None
  end.

(** A Python [int] as an operand of a numpy operation: it is converted to
    the dtype, and OverflowError is raised when it is too large. *)
Definition int_operand (z : Z) : outcome F :=
  if int_fits z then Ret (of_int z) else Raise OverflowError.

Definition isinstance_tuple (v : pyval) : bool :=
  match v with PyTuple _ => true | _ => false end.

Definition isinstance_ndarray (v : pyval) : bool :=
  match v with PyArr _ => true | _ => false end.

Fixpoint chars (s : string) : list pyval :=
  match s with
  | EmptyString => []
  | String c s' => PyStr (String c EmptyString) :: chars s'
  end.

(** [list(iter(v))] *)
Definition py_iter (v : pyval) : outcome (list pyval) :=
  match v with
  | PyTuple items | PyList items => Ret items
  | PyStr s => Ret (chars s)
  | PyArr a =>
      match shape a with
      | [] => Raise TypeError          (* iteration over a 0-d array *)
      | n :: s => Ret (map np_return (np_rows n s (data a)))
      end
  | PyNone | PyInt _ | PyScalar _ => Raise TypeError
  end.

(** [x + y].  An array or a numpy scalar makes the addition numpy's: the
    other operand may be an array, a numpy scalar or an integer; any other
    object would be coerced by numpy to an object array, which is outside
    the fragment. *)
Definition py_add (x y : pyval) : outcome pyval :=
  match np_operand x, np_operand y with
  | Some a, Some b => r <- np_binop fadd a b ;; Ret (np_return r)
  | Some a, None =>
      match y with
      | PyInt n =>
          c <- int_operand n ;; Ret (np_return (map_array (fun v => fadd v c) a))
      | _ => Unmodelled
      end
  | None, Some b =>
      match x with
      | PyInt n =>
          c <- int_operand n ;; Ret (np_return (map_array (fadd c) b))
      | _ => Unmodelled
      end
  | None, None =>
      match x, y with
      | PyInt a, PyInt b => Ret (PyInt (a + b))
      | PyStr a, PyStr b => Ret (PyStr (String.append a b))
      | PyTuple a, PyTuple b => Ret (PyTuple (a ++ b))
      | PyList a, PyList b => Ret (PyList (a ++ b))
      | _, _ => Raise TypeError
      end
  end.

(** [x / len(pred)] under [from __future__ import division], for the length
    [n] of a sequence.  A length is at most [sys.maxsize], which the dtype
    always holds: the divisor is converted without the overflow test.  The
    quotient of two integers is a Python [float], outside the fragment. *)
Definition py_truediv_len (x : pyval) (n : nat) : outcome pyval :=
  match np_operand x with
  | Some a =>
      Ret (np_return (map_array (fun v => fdiv v (of_int (Z.of_nat n))) a))
  | None =>
      match x with
      | PyInt _ => if n =? 0 then Raise ZeroDivisionError else Unmodelled
      | _ => Raise TypeError
      end
  end.

(** [sum(xs)]: the additions are made from the left, starting from the
    integer [0]. *)
Definition py_sum (xs : list pyval) : outcome pyval :=
  fold_left (fun acc x => s <- acc ;; py_add s x) xs (Ret (PyInt 0)).

(** [xs[i]] on a list *)
Definition py_getitem (xs : list pyval) (i : nat) : outcome pyval :=
  match nth_error xs i with
  | Some v => Ret v
  | None => Raise IndexError
  end.

(** [x.squeeze()]: arrays have the method, and numpy scalars, which it
    returns as they are; nothing else has the attribute. *)
Definition py_squeeze (v : pyval) : outcome pyval :=
  match v with
  | PyArr a => Ret (PyArr (squeeze a))
  | PyScalar x => Ret (PyScalar x)
  | _ => Raise AttributeError
  end.

(** ** average_predictions *)

(** The inner function [avg]: [sum(pred) / len(pred)] *)
Definition avg (pred : list pyval) : outcome pyval :=
  s <- py_sum pred ;; py_truediv_len s (length pred).

Definition average_predictions (predictions : list pyval) : outcome pyval :=
  if length predictions =? 1 then py_getitem predictions 0
  else
    first <- py_getitem predictions 0 ;;
    if isinstance_tuple first then
      iters <- mapM py_iter predictions ;;
      avg_pred <- mapM avg (zip_rows iters) ;;
      Ret (PyTuple avg_pred)
    else avg predictions.

(** ** Layers *)

(** A layer is a collaborator: an object with private state that is called
    with a block of data and the [reset] flag, and that can be reset.  Both
    calls may raise and both may change the state. *)
Record Layer : Type := mk_Layer {
  l_state : pyval;
  l_call : pyval -> pyval -> bool -> outcome pyval * pyval;
  l_reset : pyval -> outcome pyval * pyval
}.

Definition with_state (l : Layer) (st : pyval) : Layer :=
  mk_Layer st (l_call l) (l_reset l).

(** [layer(data, reset=reset)] *)
Definition call_layer (l : Layer) (data : pyval) (reset : bool)
    : outcome pyval * Layer :=
  let (r, st) := l_call l (l_state l) data reset in (r, with_state l st).

(** [layer.reset()] *)
Definition reset_layer (l : Layer) : outcome pyval * Layer :=
  let (r, st) := l_reset l (l_state l) in (r, with_state l st).

(** What a layer was called with; the calls made are the visible effect of
    running a network. *)
Record invocation : Type := mk_invocation {
  inv_layer : Layer;
  inv_data : pyval;
  inv_reset : bool
}.

(** The result of a computation on a network: its outcome, the layers with
    their states afterwards, and the calls made to the layers, in order. *)
Record run : Type := mk_run {
  run_out : outcome pyval;
  run_layers : list Layer;
  run_calls : list invocation
}.

(** ** NeuralNetwork *)

Record NeuralNetwork : Type := mk_NeuralNetwork {
  layers : list Layer
}.

(** [if isinstance(data, np.ndarray) and data.ndim < 2:
       data = np.array(data, subok=True, copy=False, ndmin=2)] *)
Definition at_least_2d (data : pyval) : pyval :=
  match data with
  | PyArr a => if ndim a <? 2 then PyArr (np_array_ndmin2 a) else data
  | _ => data
  end.

(** [for layer in self.layers: data = layer(data, reset=reset)] *)
Fixpoint feed (ls : list Layer) (data : pyval) (reset : bool) : run :=
  match ls with
  | [] => mk_run (Ret data) [] []
  | layer :: rest =>
      let (r, layer') := call_layer layer data reset in
      let ev := mk_invocation layer data reset in
      match r with
      | Ret d =>
          let k := feed rest d reset in
          mk_run (run_out k) (layer' :: run_layers k) (ev :: run_calls k)
      | Raise e => mk_run (Raise e) (layer' :: rest) [ev]
      | Unmodelled => mk_run Unmodelled (layer' :: rest) [ev]
      end
  end.

(** [try: return data.squeeze()
     except AttributeError: return tuple([d.squeeze() for d in data])] *)
Definition squeeze_predictions (data : pyval) : outcome pyval :=
  try_except (py_squeeze data) is_AttributeError
    (items <- py_iter data ;;
     squeezed <- mapM py_squeeze items ;;
     Ret (PyTuple squeezed)).

Definition process (nn : NeuralNetwork) (data : pyval) (reset : bool) : run :=
  let data := at_least_2d data in
  let r := feed (layers nn) data reset in
  mk_run (data <- run_out r ;; squeeze_predictions data)
         (run_layers r) (run_calls r).

(** [for layer in self.layers: layer.reset()]; returns [None]. *)
Fixpoint reset_layers (ls : list Layer) : outcome pyval * list Layer :=
  match ls with
  | [] => (Ret PyNone, [])
  | layer :: rest =>
      let (r, layer') := reset_layer layer in
      match r with
      | Ret _ =>
          let (r', rest') := reset_layers rest in (r', layer' :: rest')
      | Raise e => (Raise e, layer' :: rest)
      | Unmodelled => (Unmodelled, layer' :: rest)
      end
  end.

Definition reset (nn : NeuralNetwork) : outcome pyval * NeuralNetwork :=
  let (r, ls) := reset_layers (layers nn) in (r, mk_NeuralNetwork ls).

(** The network after a call of [process]. *)
Definition network_after (r : run) : NeuralNetwork :=
  mk_NeuralNetwork (run_layers r).

(** ** NeuralNetworkEnsemble *)

Fixpoint set_nth {A} (i : nat) (v : A) (l : list A) : list A :=
  match l, i with
  | [], _ => []
  | _ :: rest, O => v :: rest
  | x :: rest, S j => x :: set_nth j v rest
  end.

(** An ensemble function takes the list of the networks' predictions. *)
Definition combiner : Type := list pyval -> outcome pyval.

(** [ParallelProcessor(networks, num_threads=num_threads)] *)
Record ParallelProcessor : Type := mk_ParallelProcessor {
  processors : list NeuralNetwork;
  num_threads : option nat
}.

(** The ensemble is the [SequentialProcessor] over the pair
    [(networks_processor, ensemble_fn)]. *)
Record NeuralNetworkEnsemble : Type := mk_NeuralNetworkEnsemble {
  networks_processor : ParallelProcessor;
  ensemble_fn : option combiner
}.

(** [NeuralNetworkEnsemble.__init__(networks, ensemble_fn, num_threads)] *)
Definition NeuralNetworkEnsemble_init (networks : list NeuralNetwork)
    (ensemble_fn : option combiner) (num_threads : option nat)
    : NeuralNetworkEnsemble :=
  let networks_processor := mk_ParallelProcessor networks num_threads in
  mk_NeuralNetworkEnsemble networks_processor ensemble_fn.

(** The default of the parameter [ensemble_fn]. *)
Definition default_ensemble_fn : option combiner := Some average_predictions.

(** Modelled from the spec: the worker pool behind [ParallelProcessor]
    (madmom.processors is not among the sources).  The spec has every member
    network run against the same input, independently, each evaluation
    changing only its own network, the results being collected in the order
    the networks were supplied whatever the completion order, and a failing
    evaluation aborting the whole call.  [sched] is the order in which the
    evaluations complete; the result of network [i] goes to slot [i]. *)
Fixpoint scatter (sched : list nat) (data : pyval) (reset : bool)
    (slots : list (option pyval)) (nets : list NeuralNetwork)
    : outcome (list (option pyval)) * list NeuralNetwork :=
  match sched with
  | [] => (Ret slots, nets)
  | i :: later =>
      match nth_error nets i with
      | None => scatter later data reset slots nets
      | Some nn =>
          let r := process nn data reset in
          let nets' := set_nth i (network_after r) nets in
          match run_out r with
          | Ret p => scatter later data reset (set_nth i (Some p) slots) nets'
          | Raise e => (Raise e, nets')
          | Unmodelled => (Unmodelled, nets')
          end
      end
  end.

(** Modelled from the spec: the results are gathered in the order of the
    networks once every evaluation has completed. *)
Definition gather (slots : list (option pyval)) : outcome (list pyval) :=
  mapM (fun s => match s with Some p => Ret p | None => Unmodelled end) slots.

(** Modelled from the spec: [ParallelProcessor.process], an order-preserving
    map of [process] over the networks; [num_threads] bounds the number of
    workers and has no part in the result. *)
Definition parallel_process (sched : list nat) (pp : ParallelProcessor)
    (data : pyval) (reset : bool) : outcome (list pyval) * ParallelProcessor :=
  let nets := processors pp in
  let (r, nets') := scatter sched data reset (map (fun _ => None) nets) nets in
  (slots <- r ;; gather slots, mk_ParallelProcessor nets' (num_threads pp)).

(** Modelled from the spec: [SequentialProcessor.process] on the ensemble's
    pair: the ordered list of predictions is passed to the combiner, or
    returned as it is when the combiner is [None]. *)
Definition ensemble_process (sched : list nat) (ens : NeuralNetworkEnsemble)
    (data : pyval) (reset : bool) : outcome pyval * NeuralNetworkEnsemble :=
  let (r, pp) := parallel_process sched (networks_processor ens) data reset in
  (predictions <- r ;;
   match ensemble_fn ens with
   | None => Ret (PyList predictions)
   | Some f => f predictions
   end,
   mk_NeuralNetworkEnsemble pp (ensemble_fn ens)).

End WithScalar.

Arguments ndarray F : clear implicits.
Arguments pyval F : clear implicits.
Arguments Layer F : clear implicits.
Arguments invocation F : clear implicits.
Arguments run F : clear implicits.
Arguments NeuralNetwork F : clear implicits.
Arguments ParallelProcessor F : clear implicits.
Arguments NeuralNetworkEnsemble F : clear implicits.

(** ** The combined prediction, elementwise *)

Section Elementwise.

Context {F : Type} {scalar : Scalar F}.

(** The arithmetic mean of scalars: their sum, taken from the left and from
    zero as [sum] takes it, divided by their number. *)
Definition mean (xs : list F) : F :=
  fdiv (fold_left fadd xs (of_int 0)) (of_int (Z.of_nat (length xs))).

(** Element [j] of an array, in row-major order. *)
Definition element (j : nat) (a : ndarray F) : F := nth j (data a) (of_int 0).

(** The array of shape [s] whose element [j] is the mean of the elements [j]
    of the arrays [arrs]. *)
Definition mean_array (s : list nat) (arrs : list (ndarray F)) : ndarray F :=
  mk_ndarray s (map (fun j => mean (map (element j) arrs)) (seq 0 (size_of s))).

(** Slot [i] of a tuple of arrays. *)
Definition slot (i : nat) (row : list (ndarray F)) : ndarray F :=
  nth i row (mk_ndarray [] []).

(** The tuple made of the arrays [row]. *)
Definition tuple_of (row : list (ndarray F)) : pyval F :=
  PyTuple (map (@PyArr F) row).

(** The tuple of the arrays [row] as results of numpy operations: the 0-d
    ones are numpy scalars. *)
Definition returned_tuple (row : list (ndarray F)) : pyval F :=
  PyTuple (map (@np_return F) row).

(** Every array of [arrs] has shape [s] and as many elements. *)
Definition all_of_shape (s : list nat) (arrs : list (ndarray F)) : Prop :=
  Forall (fun a => shape a = s /\ wf_array a) arrs.

(** The first [m] slots of a row of arrays have the shapes [ss]. *)
Definition slots_of_shapes (m : nat) (ss : list (list nat))
    (row : list (ndarray F)) : Prop :=
  m <= length row /\
  forall i, i < m -> shape (slot i row) = nth i ss [] /\ wf_array (slot i row).

(** The slotwise means of rows of arrays, over the first [m] slots. *)
Definition slot_means (m : nat) (ss : list (list nat))
    (rows : list (list (ndarray F))) : list (ndarray F) :=
  map (fun i => mean_array (nth i ss []) (map (slot i) rows)) (seq 0 m).

(** The mean of [K] copies of one scalar, ((0 + x + ... + x) / K). *)
Definition mean_of_copies (K : nat) (x : F) : F := mean (repeat x K).

End Elementwise.

(** ** The output of a network *)

Section Piping.

Context {F : Type}.

(** The array [a] without its axes of length one. *)
Definition drop_unit_axes (a : ndarray F) : ndarray F :=
  mk_ndarray (remove Nat.eq_dec 1 (shape a)) (data a).

(** A value without a [squeeze] attribute: neither an array nor a numpy
    scalar. *)
Definition has_no_squeeze (v : pyval F) : Prop :=
  (forall a, v <> PyArr a) /\ (forall x, v <> PyScalar x).

End Piping.

(** ** Loading an ensemble, and the vocabulary of further properties *)

Section Further.

Context {F : Type} {scalar : Scalar F}.

(** [NeuralNetworkEnsemble.load(nn_files, **kwargs)]:
    [networks = [NeuralNetwork.load(f) for f in nn_files]], then
    [cls(networks, **kwargs)].  [NeuralNetwork.load] is inherited from
    [Processor]; it is the parameter [load_network]. *)
Definition NeuralNetworkEnsemble_load
    (load_network : string -> outcome (NeuralNetwork F))
    (nn_files : list string) (ensemble_fn : option (combiner (F := F)))
    (num_threads : option nat) : outcome (NeuralNetworkEnsemble F) :=
  networks <- mapM load_network nn_files ;;
  Ret (NeuralNetworkEnsemble_init networks ensemble_fn num_threads).

(** Two shapes that cannot be broadcast together: on some axis, counted from
    the last one, the lengths differ and neither of them is one. *)
Definition incompatible_shapes (s t : list nat) : Prop :=
  exists s1 d s2 t1 e t2,
    s = s1 ++ d :: s2 /\ t = t1 ++ e :: t2 /\ length s2 = length t2
    /\ d <> e /\ d <> 1 /\ e <> 1.

(** An array that has no axis of length one. *)
Definition no_unit_axis (a : ndarray F) : Prop :=
  Forall (fun d => d <> 1) (shape a).

(** A squeezed value: an array without an axis of length one, or a numpy
    scalar. *)
Definition squeezed (v : pyval F) : Prop :=
  (exists a, v = PyArr a /\ no_unit_axis a) \/ (exists x, v = PyScalar x).

(** A layer that, called with [reset=True], starts from its initial state:
    what it returns and the state it is left in do not depend on the state
    it was in. *)
Definition starts_afresh (l : Layer F) : Prop :=
  forall st st' d, l_call l st d true = l_call l st' d true.

(** A layer for which a call with [reset=True] is [reset()] followed by a
    call with [reset=False], and whose [reset()] returns. *)
Definition reset_is_flag (l : Layer F) : Prop :=
  forall st d,
    (exists v, fst (l_reset l st) = Ret v)
    /\ l_call l (snd (l_reset l st)) d false = l_call l st d true.

(** The layer [l] after its [reset()]. *)
Definition after_reset (l : Layer F) : Layer F :=
  with_state l (snd (l_reset l (l_state l))).

End Further.

(** ** IEEE 754 binary64 scalars *)

Module Float64.

(** A Python [int] converted to a double: the nearest double, ties to even.
    Beyond the range of doubles the rounding gives an infinity, and Python
    raises OverflowError. *)
Definition rounded_int (z : Z) : SpecFloat.spec_float :=
  SpecFloat.binary_normalize prec emax z 0 false.

Definition float_of_int (z : Z) : float := SF2Prim (rounded_int z).

Definition float_fits (z : Z) : bool :=
  match rounded_int z with
  | SpecFloat.S754_infinity _ => false
  | _ => true
  end.

#[export] Instance float64 : Scalar float := {
  of_int := float_of_int;
  int_fits := float_fits;
  fadd := PrimFloat.add;
  fdiv := PrimFloat.div;
  int_fits_0 := eq_refl
}.

(** A 0-d array. *)
Definition scalar0 (x : float) : pyval float := PyArr (mk_ndarray [] [x]).

(** A 1-d array. *)
Definition vector (xs : list float) : pyval float :=
  PyArr (mk_ndarray [length xs] xs).

(** Example layers and networks, on binary64 arrays. *)

(** A stateless layer that adds the integer [k] to its input. *)
Definition shift_layer (k : Z) : Layer float :=
  mk_Layer PyNone
           (fun st d _ => (py_add d (PyInt k), st))
           (fun st => (Ret PyNone, st)).

(** A multi-task layer: it returns the list of its input and of its input
    shifted by one. *)
Definition two_task_layer : Layer float :=
  mk_Layer PyNone
           (fun st d _ => (x <- py_add d (PyInt 1) ;; Ret (PyList [d; x]), st))
           (fun st => (Ret PyNone, st)).

(** A layer that raises the exception [e]. *)
Definition failing_layer (e : exn) : Layer float :=
  mk_Layer PyNone (fun st _ _ => (Raise e, st)) (fun st => (Ret PyNone, st)).

Definition shift_network (k : Z) : NeuralNetwork float :=
  mk_NeuralNetwork [shift_layer k].

Definition empty_net : NeuralNetwork float := mk_NeuralNetwork [].

(** A recurrent layer: its state counts the calls since the last reset,
    and the count is added to the input. *)
Definition counting_layer : Layer float :=
  mk_Layer (PyInt 0)
           (fun st d (reset : bool) =>
              let base := if reset then PyInt 0 else st in
              (py_add d base,
               match base with PyInt n => PyInt (n + 1) | _ => PyInt 1 end))
           (fun st => (Ret PyNone, PyInt 0)).

(** A layer that passes its input on and whose [reset()] raises [e]. *)
Definition unresettable_layer (e : exn) : Layer float :=
  mk_Layer PyNone (fun st d _ => (Ret d, st)) (fun st => (Raise e, st)).

(** A loader that knows two model files. *)
Definition load_example (f : string) : outcome (NeuralNetwork float) :=
  if String.eqb f "shift1.pkl" then Ret (shift_network 1)
  else if String.eqb f "shift2.pkl" then Ret (shift_network 2)
  else Raise (OtherError "IOError").

(** The second element of a returned vector, as a specified float. *)
Definition second_element (o : outcome (pyval float)) : option SpecFloat.spec_float :=
  match o with
  | Ret (PyArr a) => option_map Prim2SF (nth_error (data a) 1)
  | _ => None
  end.

End Float64.

(** * Properties *)

(** ** Lists *)

Section ListFacts.

Context {A : Type}.

Lemma zip_with_length {B C} (f : A -> B -> C) xs ys :
  length xs = length ys -> length (zip_with f xs ys) = length xs.
Proof.
  revert ys; induction xs as [|x xs IH]; intros [|y ys] Hlen; simpl in *;
    try discriminate; auto.
Qed.

Lemma zip_with_nth {B C} (f : A -> B -> C) xs ys j dx dy dz :
  j < length xs -> length xs = length ys ->
  nth j (zip_with f xs ys) dz = f (nth j xs dx) (nth j ys dy).
Proof.
  revert ys j; induction xs as [|x xs IH]; intros [|y ys] [|j] Hj Hlen;
    simpl in *; try discriminate; try lia; auto.
  apply IH; lia.
Qed.

Lemma block_0 k (xs : list A) : block k 0 xs = firstn k xs.
Proof. reflexivity. Qed.

Lemma block_S k i (xs : list A) :
  block k (S i) xs = block k i (skipn k xs).
Proof.
  unfold block. rewrite skipn_skipn. f_equal. f_equal. simpl. lia.
Qed.

Lemma flat_map_blocks k d (xs : list A) :
  length xs = d * k ->
  flat_map (fun i => block k i xs) (seq 0 d) = xs.
Proof.
  revert xs; induction d as [|d IH]; intros xs Hlen.
  - simpl in *. now apply length_zero_iff_nil in Hlen.
  - simpl seq. simpl flat_map. rewrite <- seq_shift, flat_map_concat_map, map_map.
    rewrite <- flat_map_concat_map.
    rewrite (flat_map_ext _ (fun i => block k i (skipn k xs))).
    + rewrite IH.
      * rewrite block_0. apply firstn_skipn.
      * rewrite length_skipn. simpl in Hlen. lia.
    + intros i. apply block_S.
Qed.

Lemma block_length k d i (xs : list A) :
  length xs = d * k -> i < d -> length (block k i xs) = k.
Proof.
  intros Hlen Hi. unfold block. rewrite length_firstn, length_skipn. nia.
Qed.

Lemma set_nth_length i (v : A) l : length (set_nth i v l) = length l.
Proof.
  revert i; induction l as [|x l IH]; intros [|i]; simpl; auto.
Qed.

Lemma nth_error_set_nth_eq i (v : A) l :
  i < length l -> nth_error (set_nth i v l) i = Some v.
Proof.
  revert i; induction l as [|x l IH]; intros [|i] Hi; simpl in *; try lia; auto.
  apply IH; lia.
Qed.

Lemma nth_error_set_nth_neq i j (v : A) l :
  i <> j -> nth_error (set_nth i v l) j = nth_error l j.
Proof.
  revert i j; induction l as [|x l IH]; intros [|i] [|j] Hij; simpl; auto;
    try congruence.
Qed.

Lemma uncons_all_heads d (rows : list (list A)) :
  Forall (fun r => 1 <= length r) rows ->
  uncons_all rows = Some (map (fun r => nth 0 r d) rows, map (@tl A) rows).
Proof.
  induction 1 as [|r rows Hr _ IH]; simpl; auto.
  destruct r as [|x r]; simpl in *; [lia|]. now rewrite IH.
Qed.

Lemma uncons_all_exhausted (rows : list (list A)) :
  Exists (fun r => length r = 0) rows -> uncons_all rows = None.
Proof.
  induction 1 as [r rows Hr|r rows _ IH]; simpl.
  - destruct r; [reflexivity|discriminate].
  - rewrite IH. now destruct r.
Qed.

(** [zip] transposes its arguments up to the length of the shortest. *)
Lemma zip_star_shortest d m : forall (rows : list (list A)) fuel,
  Forall (fun r => m <= length r) rows ->
  Exists (fun r => length r = m) rows ->
  m <= fuel ->
  zip_star fuel rows = map (fun i => map (fun r => nth i r d) rows) (seq 0 m).
Proof.
  induction m as [|m IH]; intros rows fuel Hall Hex Hfuel.
  - destruct fuel; simpl; auto. now rewrite uncons_all_exhausted.
  - destruct fuel as [|fuel]; [lia|]. simpl zip_star.
    rewrite (uncons_all_heads d).
    + simpl seq. simpl map. f_equal.
      rewrite <- seq_shift, map_map.
      rewrite (IH (map (@tl A) rows) fuel).
      * apply map_ext. intros i. rewrite map_map. apply map_ext.
        intros [|x r]; destruct i; reflexivity.
      * apply Forall_map. eapply Forall_impl; [|exact Hall].
        intros [|x r]; simpl; lia.
      * apply Exists_exists in Hex. destruct Hex as [r [Hin Hr]].
        apply Exists_exists. exists (tl r). split; [now apply in_map|].
        destruct r; simpl in *; lia.
      * lia.
    + eapply Forall_impl; [|exact Hall]. intros; simpl in *; lia.
Qed.

Lemma zip_rows_shortest d m (rows : list (list A)) :
  Forall (fun r => m <= length r) rows ->
  Exists (fun r => length r = m) rows ->
  zip_rows rows = map (fun i => map (fun r => nth i r d) rows) (seq 0 m).
Proof.
  intros Hall Hex. destruct rows as [|r rows]; [inversion Hex|].
  unfold zip_rows. apply zip_star_shortest; auto.
  now inversion Hall.
Qed.

Lemma map_indices {B} (g : A -> B) d (l : list A) :
  map (fun i => g (nth i l d)) (seq 0 (length l)) = map g l.
Proof.
  induction l as [|x l IH]; simpl; auto.
  f_equal. now rewrite <- seq_shift, map_map.
Qed.

End ListFacts.

(** ** numpy on arrays of one shape *)

Section ArrayFacts.

Context {F : Type} {scalar : Scalar F}.

Lemma bind_Ret {A B} (v : A) (k : A -> outcome B) : bind (Ret v) k = k v.
Proof. reflexivity. Qed.

Lemma mapM_map_Ret {A B C} (f : B -> outcome C) (h : A -> B) (g : A -> C) l :
  (forall x, In x l -> f (h x) = Ret (g x)) ->
  mapM f (map h l) = Ret (map g l).
Proof.
  induction l as [|x l IH]; intros Hf; simpl; auto.
  rewrite (Hf x) by now left. simpl.
  rewrite IH by (intros; apply Hf; now right). reflexivity.
Qed.

Lemma broadcast_rev_same s : broadcast_rev s s = Some s.
Proof.
  induction s as [|d s IH]; simpl; auto.
  now rewrite IH, Nat.eqb_refl.
Qed.

Lemma broadcast_shapes_same s : broadcast_shapes s s = Some s.
Proof.
  unfold broadcast_shapes. rewrite broadcast_rev_same. simpl.
  now rewrite rev_involutive.
Qed.

Lemma pad_shape_same s : pad_shape (length s) s = s.
Proof. unfold pad_shape. now rewrite Nat.sub_diag. Qed.

Lemma expand_same s : forall xs : list F,
  length xs = size_of s -> expand s s xs = xs.
Proof.
  induction s as [|d s IH]; intros xs Hlen; simpl; auto.
  rewrite Nat.eqb_refl. simpl in Hlen.
  rewrite flat_map_concat_map.
  rewrite (map_ext_in _ (fun i => block (size_of s) i xs)).
  - rewrite <- flat_map_concat_map. now apply flat_map_blocks.
  - intros i Hi. apply in_seq in Hi. apply IH.
    apply block_length with (d := d); lia.
Qed.

Lemma broadcast_to_same (a : ndarray F) :
  wf_array a -> broadcast_to (shape a) a = data a.
Proof.
  intros Hwf. unfold broadcast_to. rewrite pad_shape_same.
  now apply expand_same.
Qed.

(** On two arrays of one shape a binary ufunc works element by element. *)
Lemma np_binop_same_shape (f : F -> F -> F) (a b : ndarray F) :
  shape a = shape b -> wf_array a -> wf_array b ->
  np_binop f a b = Ret (mk_ndarray (shape a) (zip_with f (data a) (data b))).
Proof.
  intros Hs Ha Hb. unfold np_binop. rewrite <- Hs, broadcast_shapes_same.
  rewrite (broadcast_to_same Ha). rewrite Hs, (broadcast_to_same Hb).
  reflexivity.
Qed.

Lemma fold_zip_length (f : F -> F -> F) rows : forall acc n,
  length acc = n -> Forall (fun r : list F => length r = n) rows ->
  length (fold_left (zip_with f) rows acc) = n.
Proof.
  induction rows as [|r rows IH]; intros acc n Hacc Hrows; simpl; auto.
  inversion Hrows; subst. apply IH; auto.
  rewrite zip_with_length; congruence.
Qed.

Lemma fold_zip_nth (f : F -> F -> F) d j rows : forall acc n,
  j < n -> length acc = n -> Forall (fun r : list F => length r = n) rows ->
  nth j (fold_left (zip_with f) rows acc) d
  = fold_left f (map (fun r => nth j r d) rows) (nth j acc d).
Proof.
  induction rows as [|r rows IH]; intros acc n Hj Hacc Hrows; simpl; auto.
  inversion Hrows; subst.
  rewrite (IH _ (length acc)); auto.
  - f_equal. apply zip_with_nth; [lia | congruence].
  - rewrite zip_with_length; congruence.
Qed.

(** An array that numpy has returned is the operand it stands for. *)
Lemma np_operand_return (a : ndarray F) :
  wf_array a -> np_operand (np_return a) = Some a.
Proof.
  destruct a as [[|d s] xs]; unfold wf_array, np_return; cbn [shape data];
    intros Hwf; [|reflexivity].
  destruct xs as [|x [|y xs]]; try discriminate Hwf. reflexivity.
Qed.

(** Only a 0-d result is returned as a numpy scalar. *)
Lemma np_return_array (a : ndarray F) : shape a <> [] -> np_return a = PyArr a.
Proof.
  destruct a as [[|d s] xs]; unfold np_return; cbn [shape data];
    [congruence|reflexivity].
Qed.

Lemma py_add_operands (u v : pyval F) a b :
  np_operand u = Some a -> np_operand v = Some b ->
  py_add u v = (r <- np_binop fadd a b ;; Ret (np_return r)).
Proof. intros Hu Hv. unfold py_add. now rewrite Hu, Hv. Qed.

(** The first addition of [sum]: the integer 0 and an array. *)
Lemma py_add_zero (a : ndarray F) :
  py_add (PyInt 0) (PyArr a) = Ret (np_return (map_array (fadd (of_int 0)) a)).
Proof.
  unfold py_add, int_operand. cbn [np_operand]. now rewrite int_fits_0.
Qed.

Lemma map_array_wf (f : F -> F) (a : ndarray F) :
  wf_array a -> wf_array (map_array f a).
Proof.
  unfold wf_array, map_array. cbn [shape data]. now rewrite length_map.
Qed.

(** [sum] continued from an array over arrays of its shape. *)
Lemma sum_arrays_from s rest : forall acc : ndarray F,
  shape acc = s -> wf_array acc -> all_of_shape s rest ->
  fold_left (fun acc x => s <- acc ;; py_add s x) (map (@PyArr F) rest)
            (Ret (np_return acc))
  = Ret (np_return (mk_ndarray s
                      (fold_left (zip_with fadd) (map (@data F) rest)
                                 (data acc)))).
Proof.
  induction rest as [|b rest IH]; intros acc Hs Hwf Hrest; cbn [map fold_left].
  - now rewrite <- Hs; destruct acc.
  - inversion Hrest as [|? ? [Hb Hwb] Hrest']; subst. cbn [bind].
    rewrite (@py_add_operands (np_return acc) (PyArr b) acc b
               (np_operand_return Hwf) eq_refl).
    rewrite np_binop_same_shape by (auto; congruence). cbn [bind].
    rewrite IH; auto.
    unfold wf_array in *; simpl. rewrite zip_with_length; congruence.
Qed.

(** [avg] of arrays of one shape is their elementwise mean. *)
Lemma avg_arrays s (arrs : list (ndarray F)) :
  arrs <> [] -> all_of_shape s arrs ->
  avg (map (@PyArr F) arrs) = Ret (np_return (mean_array s arrs)).
Proof.
  intros Hne Hall. destruct arrs as [|a rest]; [congruence|clear Hne].
  inversion Hall as [|? ? [Ha Hwa] Hrest]; subst.
  unfold avg, py_sum.
  set (N := length (map (@PyArr F) (a :: rest))).
  assert (HN : N = length (a :: rest)) by (subst N; now rewrite length_map).
  clearbody N. cbn [fold_left map bind]. rewrite py_add_zero.
  assert (Hwf0 : wf_array (map_array (fadd (of_int 0)) a))
    by now apply map_array_wf.
  rewrite (@sum_arrays_from (shape a)); auto.
  cbn [bind]. unfold py_truediv_len.
  assert (Hlens : Forall (fun r : list F => length r = size_of (shape a))
                         (map (@data F) rest)).
  { apply Forall_map. eapply Forall_impl; [|exact Hrest].
    intros b [Hb Hwb]. unfold wf_array in Hwb. cbn beta. congruence. }
  assert (Hlen0 : length (map (fadd (of_int 0)) (data a)) = size_of (shape a)).
  { rewrite length_map. exact Hwa. }
  rewrite np_operand_return.
  2:{ unfold wf_array. cbn [shape data map_array].
      now apply (@fold_zip_length fadd). }
  unfold map_array, mean_array. cbn [shape data].
  do 3 f_equal.
  apply nth_ext with (d := fdiv (of_int 0) (of_int (Z.of_nat N)))
                     (d' := mean (map (element 0) (a :: rest))).
  - rewrite !length_map, length_seq. now apply (@fold_zip_length fadd).
  - intros j Hj. rewrite length_map, (@fold_zip_length fadd _ _ _ Hlen0 Hlens) in Hj.
    rewrite (map_nth (fun v => fdiv v (of_int (Z.of_nat N)))).
    rewrite (map_nth (fun j => mean (map (element j) (a :: rest))) (seq 0 _) 0 j).
    rewrite seq_nth by exact Hj. cbn [Nat.add].
    rewrite (@fold_zip_nth fadd _ _ _ _ _ Hj Hlen0 Hlens).
    unfold mean. rewrite length_map, <- HN. cbn [map fold_left].
    f_equal. rewrite map_map.
    f_equal.
    rewrite (nth_indep _ _ (fadd (of_int 0) (of_int 0))) by lia.
    apply (map_nth (fadd (of_int 0))).
Qed.

End ArrayFacts.

(** ** average_predictions *)

Section Averaging.

Context {F : Type} {scalar : Scalar F}.

Lemma mapM_py_iter (preds : list (pyval F)) rows :
  Forall2 (fun p row => py_iter p = Ret (map (@PyArr F) row)) preds rows ->
  mapM py_iter preds = Ret (map (map (@PyArr F)) rows).
Proof.
  induction 1 as [|p row preds rows Hp _ IH]; simpl; auto.
  now rewrite Hp, IH.
Qed.

(** The multi-task path: once the first prediction is a tuple, the
    predictions are iterated, transposed up to the shortest, and every slot
    is averaged. *)
Lemma average_first_tuple (preds : list (pyval F)) rows m ss :
  2 <= length rows ->
  Forall2 (fun p row => py_iter p = Ret (map (@PyArr F) row)) preds rows ->
  (exists first, hd_error preds = Some first /\ isinstance_tuple first = true) ->
  Forall (slots_of_shapes m ss) rows ->
  Exists (fun row => length row = m) rows ->
  average_predictions preds = Ret (returned_tuple (slot_means m ss rows)).
Proof.
  intros Hlen Hiter [first [Hhd Htup]] Hrows Hex.
  pose proof (Forall2_length Hiter) as Hlen'.
  unfold average_predictions.
  destruct preds as [|p0 preds]; [discriminate|]. simpl in Hhd.
  injection Hhd as ->.
  replace (length (first :: preds) =? 1) with false
    by (symmetry; apply Nat.eqb_neq; simpl in *; lia).
  cbn [py_getitem nth_error bind]. rewrite Htup.
  rewrite (mapM_py_iter Hiter). cbn [bind].
  rewrite (zip_rows_shortest (PyArr (mk_ndarray [] [])) (m := m)).
  - rewrite (mapM_map_Ret _ _
               (fun i => np_return (mean_array (nth i ss []) (map (slot i) rows)))).
    + cbn [bind]. unfold returned_tuple, slot_means. now rewrite map_map.
    + intros i Hi. apply in_seq in Hi. rewrite map_map.
      rewrite (map_ext _ (fun row => PyArr (slot i row)))
        by (intros row; apply (map_nth (@PyArr F))).
      rewrite <- map_map. apply avg_arrays.
      * destruct rows; simpl in *; [lia|discriminate].
      * apply Forall_map. eapply Forall_impl; [|exact Hrows].
        intros row [_ Hrow]. apply Hrow. lia.
  - apply Forall_map. eapply Forall_impl; [|exact Hrows].
    intros row [Hm _]. now rewrite length_map.
  - apply Exists_exists in Hex. destruct Hex as [row [Hin Hrow]].
    apply Exists_exists. exists (map (@PyArr F) row).
    split; [now apply in_map|now rewrite length_map].
Qed.

Lemma py_iter_tuples (rows : list (list (ndarray F))) :
  Forall2 (fun p row => py_iter p = Ret (map (@PyArr F) row))
          (map tuple_of rows) rows.
Proof. induction rows; simpl; constructor; auto. Qed.

(** The single-output path on arrays of one shape. *)
Lemma average_mean_array (s : list nat) (arrs : list (ndarray F)) :
  2 <= length arrs ->
  all_of_shape s arrs ->
  average_predictions (map (@PyArr F) arrs) = Ret (np_return (mean_array s arrs)).
Proof.
  intros Hlen Hall. unfold average_predictions.
  replace (length (map (@PyArr F) arrs) =? 1) with false
    by (symmetry; apply Nat.eqb_neq; rewrite length_map; lia).
  destruct arrs as [|a arrs]; [simpl in Hlen; lia|].
  cbn [map py_getitem nth_error bind isinstance_tuple].
  apply (avg_arrays (arrs := a :: arrs)); [discriminate|exact Hall].
Qed.

(** The mean of copies of one array, element by element. *)
Lemma mean_array_copies K (a : ndarray F) :
  wf_array a ->
  mean_array (shape a) (repeat a K) = map_array (mean_of_copies K) a.
Proof.
  intros Hwf. unfold mean_array, map_array. f_equal.
  rewrite <- Hwf, <- (map_indices (mean_of_copies K) (of_int 0)).
  apply map_ext. intros j. now rewrite map_repeat.
Qed.

Lemma average_copies_array K (a : ndarray F) :
  2 <= K -> wf_array a ->
  average_predictions (repeat (PyArr a) K)
  = Ret (np_return (map_array (mean_of_copies K) a)).
Proof.
  intros HK Hwf. rewrite <- map_repeat.
  rewrite (@average_mean_array (shape a)).
  - now rewrite mean_array_copies.
  - now rewrite repeat_length.
  - apply Forall_forall. intros b Hb. apply repeat_spec in Hb. now subst.
Qed.

Lemma slots_of_own_shapes (row : list (ndarray F)) :
  Forall wf_array row ->
  slots_of_shapes (length row) (map (@shape F) row) row.
Proof.
  intros Hwf. split; [lia|]. intros i Hi. unfold slot. split.
  - symmetry. exact (map_nth (@shape F) row (mk_ndarray [] []) i).
  - eapply Forall_forall; [exact Hwf|]. now apply nth_In.
Qed.

Lemma average_copies_tuple K (row : list (ndarray F)) :
  2 <= K -> Forall wf_array row ->
  average_predictions (repeat (tuple_of row) K)
  = Ret (returned_tuple (map (map_array (mean_of_copies K)) row)).
Proof.
  intros HK Hwf. rewrite <- map_repeat.
  rewrite (@average_first_tuple _ (repeat row K) (length row)
             (map (@shape F) row)).
  - f_equal. f_equal. unfold slot_means.
    rewrite <- (map_indices (map_array (mean_of_copies K)) (mk_ndarray [] [])).
    apply map_ext_in. intros i Hi. apply in_seq in Hi.
    rewrite map_repeat. fold (slot i row).
    destruct (slots_of_own_shapes Hwf) as [_ Hslots].
    destruct (Hslots i) as [Hs Hw]; [lia|].
    rewrite <- Hs. now apply mean_array_copies.
  - now rewrite repeat_length.
  - apply py_iter_tuples.
  - exists (tuple_of row). destruct K; [lia|]. now split.
  - apply Forall_forall. intros r Hr. apply repeat_spec in Hr. subst.
    now apply slots_of_own_shapes.
  - destruct K; [lia|]. now apply Exists_cons_hd.
Qed.

Lemma map_array_fixed (f : F -> F) (a : ndarray F) :
  Forall (fun x => f x = x) (data a) -> map_array f a = a.
Proof.
  intros Hfix. destruct a as [s xs]. unfold map_array. cbn [shape data] in *.
  f_equal. rewrite <- (map_id xs) at 2. apply map_ext_in.
  intros x Hx. eapply Forall_forall in Hfix; eauto.
Qed.

(** C2.  For every list of N >= 2 single-array predictions of one shape,
    [average_predictions] returns the array of that shape whose every element
    is the arithmetic mean, (sum of the elements) / N, of the corresponding
    elements of the N arrays (as numpy returns it: a numpy scalar when the
    shape is 0-d). *)
Theorem average_predictions_arrays (s : list nat) (arrs : list (ndarray F)) :
  2 <= length arrs ->
  all_of_shape s arrs ->
  exists r,
    average_predictions (map (@PyArr F) arrs) = Ret (np_return r)
    /\ shape r = s
    /\ wf_array r
    /\ forall j, j < size_of s ->
         element j r
         = fdiv (fold_left fadd (map (element j) arrs) (of_int 0))
                (of_int (Z.of_nat (length arrs))).
Proof.
  intros Hlen Hall. exists (mean_array s arrs). repeat split.
  - now apply average_mean_array.
  - unfold wf_array, mean_array. cbn [data shape].
    now rewrite length_map, length_seq.
  - intros j Hj. unfold element at 1, mean_array. cbn [data].
    rewrite (nth_indep _ _ (mean (map (element 0) arrs)))
      by now rewrite length_map, length_seq.
    rewrite (map_nth (fun j => mean (map (element j) arrs)) (seq 0 _) 0 j).
    rewrite seq_nth by exact Hj. unfold mean. now rewrite length_map.
Qed.

(** C1.  For every list of N >= 2 predictions that are tuples of one arity K,
    slot i holding arrays of one shape, [average_predictions] returns a
    K-tuple whose slot i is the elementwise mean of the slots i of the N
    tuples, in the order of the slots (a 0-d mean being a numpy scalar).
    The tuple path is chosen on the first element alone: the same result is
    returned for any predictions whose first is a tuple and which yield, when
    iterated, the same arrays; and when the first is not a tuple the whole
    list is averaged as it is, whatever the other elements are. *)
Theorem average_predictions_tuples (ss : list (list nat))
    (rows : list (list (ndarray F))) :
  2 <= length rows ->
  Forall (fun row => map (@shape F) row = ss /\ Forall wf_array row) rows ->
  let K := length ss in
  let result := slot_means K ss rows in
  average_predictions (map tuple_of rows) = Ret (returned_tuple result)
  /\ length result = K
  /\ (forall i j, i < K -> j < size_of (nth i ss []) ->
        shape (slot i result) = nth i ss []
        /\ element j (slot i result)
           = mean (map (fun row => element j (slot i row)) rows))
  /\ (forall preds : list (pyval F),
        Forall2 (fun p row => py_iter p = Ret (map (@PyArr F) row)) preds rows ->
        isinstance_tuple (hd PyNone preds) = true ->
        average_predictions preds = Ret (returned_tuple result))
  /\ (forall (first : pyval F) rest,
        rest <> [] -> isinstance_tuple first = false ->
        average_predictions (first :: rest) = avg (first :: rest)).
Proof.
  intros Hlen Hrows K result.
  assert (Hslots : Forall (slots_of_shapes K ss) rows).
  { eapply Forall_impl; [|exact Hrows]. intros row [Hs Hwf].
    assert (HK : length row = K) by (subst K; now rewrite <- Hs, length_map).
    split; [lia|]. intros i Hi. unfold slot. split.
    - rewrite <- Hs. symmetry.
      exact (map_nth (@shape F) row (mk_ndarray [] []) i).
    - eapply Forall_forall; [exact Hwf|]. apply nth_In. lia. }
  assert (Hex : Exists (fun row => length row = K) rows).
  { destruct rows as [|row rows]; [simpl in Hlen; lia|].
    apply Exists_cons_hd. inversion Hrows as [|? ? [Hs _] _].
    subst K. rewrite <- Hs. now rewrite length_map. }
  assert (Hpath : forall preds : list (pyval F),
             Forall2 (fun p row => py_iter p = Ret (map (@PyArr F) row))
                     preds rows ->
             isinstance_tuple (hd PyNone preds) = true ->
             average_predictions preds = Ret (returned_tuple result)).
  { intros preds Hiter Htup.
    apply average_first_tuple with (rows := rows) (m := K) (ss := ss); auto.
    destruct preds as [|p preds]; [discriminate|]. now exists p. }
  split; [|split; [|split; [|split]]]; auto.
  - apply Hpath; [apply py_iter_tuples|].
    destruct rows; [simpl in Hlen; lia|reflexivity].
  - unfold result, slot_means. now rewrite length_map, length_seq.
  - intros i j Hi Hj. unfold result, slot_means, slot at 1 3.
    rewrite (nth_indep _ _ (mean_array (nth 0 ss []) (map (slot 0) rows)))
      by now rewrite length_map, length_seq.
    rewrite (map_nth (fun i => mean_array (nth i ss []) (map (slot i) rows))
                     (seq 0 K) 0 i).
    rewrite seq_nth by exact Hi. cbn [Nat.add]. split; [reflexivity|].
    unfold element at 1, mean_array. cbn [data].
    rewrite (nth_indep _ _ (mean (map (element 0) (map (slot i) rows))))
      by now rewrite length_map, length_seq.
    rewrite (map_nth (fun j => mean (map (element j) (map (slot i) rows)))
                     (seq 0 _) 0 j).
    rewrite seq_nth by exact Hj. now rewrite map_map.
  - intros first rest Hrest Hnot. unfold average_predictions.
    destruct rest as [|p rest]; [congruence|].
    cbn [length Nat.eqb py_getitem nth_error bind]. now rewrite Hnot.
Qed.

(** C8, as the code has it.  For every list of N >= 2 tuple predictions whose
    arities differ, slot i holding arrays of one shape up to the shortest
    arity m, combining them raises nothing: [zip] stops at the shortest
    tuple, and the result is the m-tuple of the slotwise means (a 0-d mean
    being a numpy scalar); the slots beyond the shortest arity are
    dropped. *)
Theorem average_predictions_ragged_tuples (m : nat) (ss : list (list nat))
    (rows : list (list (ndarray F))) :
  2 <= length rows ->
  Forall (slots_of_shapes m ss) rows ->
  Exists (fun row => length row = m) rows ->
  Exists (fun row => length row <> m) rows ->
  average_predictions (map tuple_of rows)
  = Ret (returned_tuple (slot_means m ss rows))
  /\ length (slot_means m ss rows) = m.
Proof.
  intros Hlen Hrows Hmin _. split.
  - apply average_first_tuple with (rows := rows); auto.
    + apply py_iter_tuples.
    + destruct rows as [|row rows]; [simpl in Hlen; lia|].
      now exists (tuple_of row).
  - unfold slot_means. now rewrite length_map, length_seq.
Qed.

(** C5.  For every list of exactly one prediction, [average_predictions]
    returns that element unchanged, whatever it is. *)
Theorem average_predictions_single (p : pyval F) :
  average_predictions [p] = Ret p.
Proof. reflexivity. Qed.

(** C9.  For the empty list, [average_predictions] raises: the access to the
    first element fails with IndexError, and no value is returned. *)
Theorem average_predictions_empty :
  average_predictions (F := F) [] = Raise IndexError
  /\ forall v, average_predictions (F := F) [] <> Ret v.
Proof. split; [reflexivity|discriminate]. Qed.

End Averaging.

(** ** NeuralNetwork *)

Section Networks.

Context {F : Type} {scalar : Scalar F}.

Lemma mapM_py_squeeze (arrs : list (ndarray F)) :
  mapM py_squeeze (map (@PyArr F) arrs)
  = Ret (map (fun a => PyArr (squeeze a)) arrs).
Proof. apply mapM_map_Ret. reflexivity. Qed.

Lemma squeeze_ndmin2 (a : ndarray F) : squeeze (np_array_ndmin2 a) = squeeze a.
Proof.
  unfold squeeze, np_array_ndmin2. cbn [shape data]. f_equal.
  rewrite filter_app.
  induction (2 - ndim a) as [|k IH]; simpl; auto.
Qed.

(** [squeeze] removes the axes of length one and nothing else. *)
Lemma squeeze_drops (a : ndarray F) : squeeze a = drop_unit_axes a.
Proof.
  unfold squeeze, drop_unit_axes. f_equal.
  induction (shape a) as [|d s IH]; [reflexivity|]. cbn [filter remove].
  destruct (Nat.eq_dec 1 d) as [<-|Hd].
  - cbn. exact IH.
  - destruct (d =? 1) eqn:E; [apply Nat.eqb_eq in E; congruence|].
    cbn [negb]. now rewrite IH.
Qed.

(** An item without [squeeze] after arrays: the list comprehension raises
    AttributeError. *)
Lemma mapM_py_squeeze_fails (arrs : list (ndarray F)) bad rest :
  has_no_squeeze bad ->
  mapM py_squeeze (map (@PyArr F) arrs ++ bad :: rest) = Raise AttributeError.
Proof.
  intros [Harr Hsc]. induction arrs as [|a arrs IH]; cbn [map app mapM].
  - destruct bad as [|str|z|a|x|its|its]; cbn [py_squeeze bind];
      try reflexivity; [now destruct (Harr a eq_refl)|now destruct (Hsc x eq_refl)].
  - cbn [py_squeeze bind]. now rewrite IH.
Qed.

Lemma nth_error_0 {A} (l : list A) : nth_error l 0 = hd_error l.
Proof. now destruct l. Qed.

(** The loop over the layers, read off the layers' own calls: [ds] are the
    data handed from layer to layer and [k] is the number of layers that
    returned. *)
Lemma feed_trace (reset : bool) (ls : list (Layer F)) : forall d0,
  let r := feed ls d0 reset in
  exists (ds : list (pyval F)) (k : nat),
    k <= length ls /\ length ds = S k /\ nth_error ds 0 = Some d0
    /\ length (run_layers r) = length ls
    /\ (forall i l d, i < k ->
          nth_error ls i = Some l -> nth_error ds i = Some d ->
          exists d' st,
            l_call l (l_state l) d reset = (Ret d', st)
            /\ nth_error ds (S i) = Some d'
            /\ nth_error (run_layers r) i = Some (with_state l st))
    /\ (k < length ls ->
          exists l d o st,
            nth_error ls k = Some l /\ nth_error ds k = Some d
            /\ l_call l (l_state l) d reset = (o, st)
            /\ (forall v, o <> Ret v)
            /\ run_out r = o
            /\ nth_error (run_layers r) k = Some (with_state l st)
            /\ forall j, k < j -> nth_error (run_layers r) j = nth_error ls j)
    /\ (k = length ls ->
          exists last, nth_error ds k = Some last /\ run_out r = Ret last).
Proof.
  induction ls as [|l ls IH]; intros d0; cbn zeta.
  - exists [d0], 0. cbn [feed run_out run_layers length nth_error].
    repeat split; auto.
    + intros i l d Hi. lia.
    + intros H. lia.
    + intros _. now exists d0.
  - cbn [feed]. unfold call_layer.
    destruct (l_call l (l_state l) d0 reset) as [o st] eqn:Hcall.
    destruct o as [d'| e |].
    + destruct (IH d') as [ds [k [Hk [Hlen [Hhd [Hlay [Hchain [Hfail Hok]]]]]]]].
      exists (d0 :: ds), (S k). cbn [run_out run_layers length nth_error].
      split; [lia|]. split; [lia|]. split; [reflexivity|].
      split; [now rewrite Hlay|]. split; [|split].
      * intros [|i] l0 d Hi Hl0 Hd; cbn [nth_error] in *.
        -- injection Hl0 as <-. injection Hd as <-.
           exists d', st. rewrite Hcall. now repeat split.
        -- apply (Hchain i l0 d); auto. lia.
      * intros Hlt. destruct Hfail as [l0 [d [o [st0 H]]]]; [lia|].
        destruct H as [H1 [H2 [H3 [H4 [H5 [H6 H7]]]]]].
        exists l0, d, o, st0. repeat split; auto.
        intros [|j] Hj; [lia|]. cbn [nth_error]. apply H7. lia.
      * intros Heq. apply Hok. lia.
    + exists [d0], 0. cbn [run_out run_layers length nth_error].
      split; [lia|]. split; [reflexivity|]. split; [reflexivity|].
      split; [reflexivity|]. split; [|split].
      * intros i l0 d Hi. lia.
      * intros _. exists l, d0, (Raise e), st. rewrite Hcall.
        repeat split; try discriminate.
        intros [|j] Hj; [lia|reflexivity].
      * intros H. discriminate H.
    + exists [d0], 0. cbn [run_out run_layers length nth_error].
      split; [lia|]. split; [reflexivity|]. split; [reflexivity|].
      split; [reflexivity|]. split; [|split].
      * intros i l0 d Hi. lia.
      * intros _. exists l, d0, Unmodelled, st. rewrite Hcall.
        repeat split; try discriminate.
        intros [|j] Hj; [lia|reflexivity].
      * intros H. discriminate H.
Qed.

(** What the first layer is handed: the input, an array of fewer than two
    dimensions being given two. *)
Lemma at_least_2d_cases (input : pyval F) :
  (forall a, input = PyArr a -> shape a = [] ->
     at_least_2d input = PyArr (mk_ndarray [1; 1] (data a)))
  /\ (forall a n, input = PyArr a -> shape a = [n] ->
        at_least_2d input = PyArr (mk_ndarray [1; n] (data a)))
  /\ (forall a, input = PyArr a -> 2 <= length (shape a) ->
        at_least_2d input = input)
  /\ ((forall a, input <> PyArr a) -> at_least_2d input = input).
Proof.
  split; [|split; [|split]].
  - intros a -> Hs. cbn [at_least_2d]. unfold ndim, np_array_ndmin2, ndim.
    rewrite Hs. reflexivity.
  - intros a n -> Hs. cbn [at_least_2d]. unfold ndim, np_array_ndmin2, ndim.
    rewrite Hs. reflexivity.
  - intros a -> Hs. cbn [at_least_2d]. unfold ndim.
    replace (length (shape a) <? 2) with false
      by (symmetry; apply Nat.ltb_ge; lia).
    reflexivity.
  - intros Hnot. destruct input; try reflexivity. now destruct (Hnot a).
Qed.

(** C3.  [process] hands the normalised input to the first layer and the
    output of each layer to the next one, in the order of the list, every
    layer being called on its own state with the same [reset] flag.  When a
    layer does not return, its exception is the outcome of [process].  When
    all the layers return: an array comes back without its axes of length
    one, with the same elements; a list or a tuple of arrays comes back as
    the tuple of the arrays, each without its axes of length one, in the same
    order; and a failure in that second path propagates, AttributeError for
    an item that has no [squeeze], TypeError for an output that cannot be
    iterated. *)
Theorem process_pipeline (nn : NeuralNetwork F) (input : pyval F) (reset : bool) :
  let ls := layers nn in
  let out := run_out (process nn input reset) in
  exists (ds : list (pyval F)) (k : nat),
    k <= length ls /\ length ds = S k
    /\ (forall a, input = PyArr a -> shape a = [] ->
          nth_error ds 0 = Some (PyArr (mk_ndarray [1; 1] (data a))))
    /\ (forall a n, input = PyArr a -> shape a = [n] ->
          nth_error ds 0 = Some (PyArr (mk_ndarray [1; n] (data a))))
    /\ (forall a, input = PyArr a -> 2 <= length (shape a) ->
          nth_error ds 0 = Some input)
    /\ ((forall a, input <> PyArr a) -> nth_error ds 0 = Some input)
    /\ (forall i l d, i < k ->
          nth_error ls i = Some l -> nth_error ds i = Some d ->
          exists d' st,
            l_call l (l_state l) d reset = (Ret d', st)
            /\ nth_error ds (S i) = Some d')
    /\ (k < length ls ->
          exists l d o st,
            nth_error ls k = Some l /\ nth_error ds k = Some d
            /\ l_call l (l_state l) d reset = (o, st)
            /\ (forall v, o <> Ret v)
            /\ out = o)
    /\ (k = length ls ->
          exists last,
            nth_error ds k = Some last
            /\ (forall a, last = PyArr a ->
                  out = Ret (PyArr (drop_unit_axes a)))
            /\ (forall x, last = PyScalar x -> out = Ret (PyScalar x))
            /\ (forall arrs,
                  last = PyList (map (@PyArr F) arrs)
                  \/ last = PyTuple (map (@PyArr F) arrs) ->
                  out = Ret (PyTuple (map (fun a => PyArr (drop_unit_axes a))
                                          arrs)))
            /\ (forall arrs bad rest,
                  last = PyList (map (@PyArr F) arrs ++ bad :: rest)
                  \/ last = PyTuple (map (@PyArr F) arrs ++ bad :: rest) ->
                  has_no_squeeze bad ->
                  out = Raise AttributeError)
            /\ (last = PyNone \/ (exists z, last = PyInt z) ->
                  out = Raise TypeError)).
Proof.
  intros ls out.
  destruct (feed_trace reset ls (at_least_2d input))
    as [ds [k [Hk [Hlen [Hhd [_ [Hchain [Hfail Hok]]]]]]]].
  destruct (at_least_2d_cases input) as [N0 [N1 [N2 N3]]].
  exists ds, k. subst out. unfold process. cbn [run_out]. fold ls.
  split; [exact Hk|]. split; [exact Hlen|].
  split; [intros a Ha Hs; now rewrite Hhd, (N0 a Ha Hs)|].
  split; [intros a n Ha Hs; now rewrite Hhd, (N1 a n Ha Hs)|].
  split; [intros a Ha Hs; now rewrite Hhd, (N2 a Ha Hs)|].
  split; [intros Hnot; now rewrite Hhd, (N3 Hnot)|].
  split; [|split].
  - intros i l d Hi Hl Hd.
    destruct (Hchain i l d Hi Hl Hd) as [d' [st [H1 [H2 _]]]].
    now exists d', st.
  - intros Hlt. destruct (Hfail Hlt) as [l [d [o [st H]]]].
    destruct H as [H1 [H2 [H3 [H4 [H5 _]]]]].
    exists l, d, o, st. repeat split; auto.
    rewrite H5. destruct o as [v| |]; try reflexivity. now destruct (H4 v).
  - intros Heq. destruct (Hok Heq) as [last [Hlast Hout]].
    exists last. split; [exact Hlast|]. rewrite Hout. cbn [bind].
    unfold squeeze_predictions. split; [|split; [|split; [|split]]].
    + intros a ->. cbn [py_squeeze try_except]. now rewrite squeeze_drops.
    + intros x ->. reflexivity.
    + intros arrs [-> | ->];
        cbn [py_squeeze try_except is_AttributeError py_iter bind];
        rewrite mapM_py_squeeze; cbn [bind]; do 2 f_equal;
        apply map_ext; intros a; now rewrite squeeze_drops.
    + intros arrs bad rest [-> | ->] Hbad;
        cbn [py_squeeze try_except is_AttributeError py_iter bind];
        now rewrite mapM_py_squeeze_fails.
    + intros [-> | [z ->]]; reflexivity.
Qed.

(** C6.  The first layer is called with the normalised input: an array of
    fewer than two dimensions arrives with exactly two, the same elements and
    ones prepended to its shape ((1, 1) for a 0-d array, (1, n) for a vector
    of n elements); an input that is not an array, a numpy scalar among
    them, arrives unchanged (as does an array of two dimensions or more).
    The call is the layer's own: the layer is left in the state the call
    gives, and when the call does not return, its outcome is that of
    [process]. *)
Theorem process_first_layer_input (l : Layer F) (ls : list (Layer F))
    (input : pyval F) (reset : bool) :
  let r := process (mk_NeuralNetwork (l :: ls)) input reset in
  exists ev,
    hd_error (run_calls r) = Some ev
    /\ inv_layer ev = l
    /\ inv_reset ev = reset
    /\ hd_error (run_layers r)
       = Some (with_state l (snd (l_call l (l_state l) (inv_data ev) reset)))
    /\ ((forall v, fst (l_call l (l_state l) (inv_data ev) reset) <> Ret v) ->
        run_out r = fst (l_call l (l_state l) (inv_data ev) reset))
    /\ (forall a, input = PyArr a -> ndim a < 2 ->
          exists a',
            inv_data ev = PyArr a'
            /\ ndim a' = 2
            /\ data a' = data a
            /\ shape a' = repeat 1 (2 - ndim a) ++ shape a
            /\ size_of (shape a') = size_of (shape a))
    /\ (forall a, input = PyArr a -> shape a = [] ->
          inv_data ev = PyArr (mk_ndarray [1; 1] (data a)))
    /\ (forall a n, input = PyArr a -> shape a = [n] ->
          inv_data ev = PyArr (mk_ndarray [1; n] (data a)))
    /\ (isinstance_ndarray input = false -> inv_data ev = input)
    /\ ((forall a, input <> PyArr a) -> inv_data ev = input)
    /\ (forall x, input = PyScalar x -> inv_data ev = PyScalar x)
    /\ (forall a, input = PyArr a -> 2 <= ndim a -> inv_data ev = input).
Proof.
  intros r. exists (mk_invocation l (at_least_2d input) reset).
  destruct (at_least_2d_cases input) as [N0 [N1 [N2 N3]]].
  assert (Hrun : hd_error (run_calls r)
                 = Some (mk_invocation l (at_least_2d input) reset)
                 /\ hd_error (run_layers r)
                    = Some (with_state l
                              (snd (l_call l (l_state l) (at_least_2d input)
                                      reset)))
                 /\ ((forall v, fst (l_call l (l_state l) (at_least_2d input)
                                       reset) <> Ret v) ->
                     run_out r
                     = fst (l_call l (l_state l) (at_least_2d input) reset))).
  { subst r. unfold process. cbn [layers feed run_calls run_layers run_out].
    unfold call_layer.
    destruct (l_call l (l_state l) (at_least_2d input) reset) as [[d| e |] st];
      cbn [fst snd run_calls run_layers run_out hd_error bind];
      repeat split; auto.
    intros H. now destruct (H d). }
  destruct Hrun as [Hcalls [Hlayers Hout]]. cbn [inv_layer inv_data inv_reset].
  split; [exact Hcalls|]. split; [reflexivity|]. split; [reflexivity|].
  split; [exact Hlayers|]. split; [exact Hout|].
  split; [|split; [|split; [|split; [|split; [|split]]]]].
  - intros a -> Hnd. exists (np_array_ndmin2 a). cbn [at_least_2d].
    replace (ndim a <? 2) with true by (symmetry; now apply Nat.ltb_lt).
    repeat split.
    + unfold ndim, np_array_ndmin2 in *. cbn [shape].
      rewrite length_app, repeat_length. unfold ndim. lia.
    + unfold np_array_ndmin2. cbn [shape].
      unfold size_of. rewrite fold_right_app.
      induction (2 - ndim a) as [|k IH]; cbn [repeat fold_right]; lia.
  - exact N0.
  - exact N1.
  - intros Hnot. apply N3. intros a ->. discriminate Hnot.
  - exact N3.
  - intros x ->. reflexivity.
  - intros a Ha Hnd. now apply (N2 a).
Qed.

(** C10.  A network without layers is the identity up to the normalisation
    of the shape: on an array, [process] returns the array reshaped to at
    least two dimensions and then squeezed, with the same elements; no layer
    is called; and [reset] changes nothing. *)
Theorem empty_network (input : pyval F) (reset_flag : bool) :
  let nn := mk_NeuralNetwork (F := F) [] in
  let r := process nn input reset_flag in
  run_calls r = []
  /\ network_after r = nn
  /\ (forall a, input = PyArr a ->
        run_out r = Ret (PyArr (squeeze (np_array_ndmin2 a)))
        /\ run_out r = Ret (PyArr (squeeze a))
        /\ data (squeeze a) = data a)
  /\ reset nn = (Ret PyNone, nn).
Proof.
  intros nn r. split; [reflexivity|]. split; [reflexivity|].
  split; [|reflexivity].
  intros a ->. subst r nn. unfold process.
  cbn [layers feed run_out bind at_least_2d].
  assert (Hout : squeeze_predictions (if ndim a <? 2
                                      then PyArr (np_array_ndmin2 a)
                                      else PyArr a)
                 = Ret (PyArr (squeeze a))).
  { destruct (ndim a <? 2); unfold squeeze_predictions;
      cbn [py_squeeze try_except]; [now rewrite squeeze_ndmin2|reflexivity]. }
  rewrite Hout, squeeze_ndmin2. repeat split.
Qed.

End Networks.

(** ** NeuralNetworkEnsemble *)

Section Ensembles.

Context {F : Type} {scalar : Scalar F}.

Lemma Forall2_nth_error_l {A B} (R : A -> B -> Prop) l l' i x :
  Forall2 R l l' -> nth_error l i = Some x ->
  exists y, nth_error l' i = Some y /\ R x y.
Proof.
  intros H; revert i; induction H as [|a b l l' Hab _ IH]; intros [|i] Hi;
    simpl in *; try discriminate.
  - injection Hi as <-. now exists b.
  - now apply IH.
Qed.

(** Every evaluation scheduled once, on a network not evaluated before, and
    returning: the slots of the scheduled networks hold their predictions,
    the other slots are untouched. *)
Lemma scatter_returns (input : pyval F) (reset : bool) nets0 preds :
  Forall2 (fun nn p => run_out (process nn input reset) = Ret p) nets0 preds ->
  forall sched slots nets,
    NoDup sched ->
    (forall i, In i sched -> i < length nets0) ->
    length slots = length nets0 ->
    (forall i, In i sched -> nth_error nets i = nth_error nets0 i) ->
    exists slots' nets',
      scatter sched input reset slots nets = (Ret slots', nets')
      /\ length slots' = length nets0
      /\ (forall i, In i sched ->
            nth_error slots' i = option_map Some (nth_error preds i))
      /\ (forall i, ~ In i sched -> nth_error slots' i = nth_error slots i).
Proof.
  intros Hall sched.
  induction sched as [|i later IH]; intros slots nets Hnd Hlt Hls Hnets.
  - exists slots, nets. simpl. repeat split; auto. intros i [].
  - cbn [scatter].
    assert (Hi : i < length nets0) by (apply Hlt; now left).
    destruct (nth_error nets0 i) as [nn|] eqn:Hnn;
      [|apply nth_error_None in Hnn; lia].
    rewrite (Hnets i (or_introl eq_refl)), Hnn.
    destruct (Forall2_nth_error_l _ Hall Hnn) as [p [Hp Hrun]].
    rewrite Hrun. inversion Hnd as [|? ? Hnotin Hnd']; subst.
    destruct (IH (set_nth i (Some p) slots)
                 (set_nth i (network_after (process nn input reset)) nets))
      as [slots' [nets' [Hsc [Hl [Hin Hnin]]]]]; auto.
    + intros j Hj. apply Hlt. now right.
    + now rewrite set_nth_length.
    + intros j Hj. rewrite nth_error_set_nth_neq.
      * apply Hnets. now right.
      * intros ->. contradiction.
    + exists slots', nets'. split; [exact Hsc|]. split; [exact Hl|]. split.
      * intros j [<-|Hj]; [|now apply Hin].
        rewrite Hnin by assumption.
        rewrite nth_error_set_nth_eq by lia. now rewrite Hp.
      * intros j Hj. rewrite Hnin by (intro; apply Hj; now right).
        apply nth_error_set_nth_neq. intros ->. apply Hj. now left.
Qed.

Lemma gather_filled (preds : list (pyval F)) :
  gather (map Some preds) = Ret preds.
Proof.
  unfold gather. rewrite (mapM_map_Ret _ _ (fun p => p)); [|reflexivity].
  now rewrite map_id.
Qed.

(** Whatever the order of completion, the predictions come back in the
    order of the networks. *)
Lemma parallel_process_returns sched (nets : list (NeuralNetwork F)) preds
    threads (input : pyval F) (reset : bool) :
  Permutation sched (seq 0 (length nets)) ->
  Forall2 (fun nn p => run_out (process nn input reset) = Ret p) nets preds ->
  fst (parallel_process sched (mk_ParallelProcessor nets threads) input reset)
  = Ret preds.
Proof.
  intros Hperm Hall. unfold parallel_process. cbn [processors].
  assert (Hin : forall i, In i sched <-> i < length nets).
  { intros i. split; intros Hi.
    - apply (Permutation_in _ Hperm) in Hi. apply in_seq in Hi. lia.
    - apply (Permutation_in _ (Permutation_sym Hperm)). apply in_seq. lia. }
  destruct (@scatter_returns input reset nets preds Hall sched
              (map (fun _ => None) nets) nets)
    as [slots' [nets' [Hsc [Hl [Hdone _]]]]]; auto.
  - apply (Permutation_NoDup (Permutation_sym Hperm)), seq_NoDup.
  - intros i Hi. now apply Hin.
  - now rewrite length_map.
  - rewrite Hsc. cbn [fst bind].
    replace slots' with (map Some preds); [apply gather_filled|].
    apply nth_error_ext. intros i. rewrite nth_error_map.
    destruct (Nat.lt_ge_cases i (length nets)) as [Hi|Hi].
    + symmetry. apply Hdone. now apply Hin.
    + pose proof (Forall2_length Hall) as Hlen.
      replace (nth_error preds i) with (@None (pyval F))
        by (symmetry; apply nth_error_None; lia).
      symmetry. apply nth_error_None. lia.
Qed.

(** An evaluation that does not return aborts the call with its outcome. *)
Lemma parallel_process_aborts sched K (nn : NeuralNetwork F) threads
    (input : pyval F) (reset : bool) :
  1 <= K ->
  Permutation sched (seq 0 K) ->
  (forall p, run_out (process nn input reset) <> Ret p) ->
  fst (parallel_process sched (mk_ParallelProcessor (repeat nn K) threads)
         input reset)
  = bind (run_out (process nn input reset)) (fun _ => Ret []).
Proof.
  intros HK Hperm Hfail. unfold parallel_process. cbn [processors].
  destruct sched as [|i later].
  - apply Permutation_nil in Hperm. destruct K; [lia|discriminate].
  - assert (Hi : i < K).
    { assert (In i (seq 0 K)) as Hin
        by (apply (Permutation_in _ Hperm); now left).
      apply in_seq in Hin. lia. }
    cbn [scatter]. rewrite nth_error_repeat by exact Hi.
    destruct (run_out (process nn input reset)) as [p| e |] eqn:Hrun.
    + now destruct (Hfail p).
    + reflexivity.
    + reflexivity.
Qed.

Lemma ensemble_process_combines sched (nets : list (NeuralNetwork F)) fn
    threads (input : pyval F) (reset : bool) :
  fst (ensemble_process sched (NeuralNetworkEnsemble_init nets fn threads)
         input reset)
  = (predictions <-
       fst (parallel_process sched (mk_ParallelProcessor nets threads)
              input reset) ;;
     match fn with
     | None => Ret (PyList predictions)
     | Some f => f predictions
     end).
Proof.
  unfold ensemble_process, NeuralNetworkEnsemble_init.
  cbn [networks_processor ensemble_fn].
  now destruct (parallel_process _ _ _ _).
Qed.

(** C4.  An ensemble of K networks built with the combiner [None]: whatever
    the order in which the evaluations complete, [process] returns the list
    of the K predictions in the order of the networks, element i being what
    network i returns on the input by itself. *)
Theorem ensemble_without_combiner sched (nets : list (NeuralNetwork F)) preds
    threads (input : pyval F) (reset : bool) :
  Permutation sched (seq 0 (length nets)) ->
  Forall2 (fun nn p => run_out (process nn input reset) = Ret p) nets preds ->
  fst (ensemble_process sched (NeuralNetworkEnsemble_init nets None threads)
         input reset)
  = Ret (PyList preds)
  /\ length preds = length nets.
Proof.
  intros Hperm Hall. split.
  - rewrite ensemble_process_combines.
    now rewrite (@parallel_process_returns sched nets preds threads input reset
                   Hperm Hall).
  - symmetry. apply (Forall2_length Hall).
Qed.

(** C7, as the code has it.  An ensemble of K >= 1 identical networks with
    the default combiner raises what a member raises, and otherwise returns
    [average_predictions] of K copies of the member's prediction: the
    prediction itself when K = 1; for K >= 2 and an array, or a tuple of
    arrays, every element x becomes the mean of K copies of x in the
    arithmetic of the array, ((0 + x + ... + x) / K).  The result is the
    member's prediction whenever that mean is x for every element (a 0-d
    array coming back, for K >= 2, as the numpy scalar of the same value). *)
Theorem ensemble_of_identical_networks K sched (nn : NeuralNetwork F) threads
    (input : pyval F) (reset : bool) :
  1 <= K ->
  Permutation sched (seq 0 K) ->
  let single := run_out (process nn input reset) in
  let ens :=
    fst (ensemble_process sched
           (NeuralNetworkEnsemble_init (repeat nn K) default_ensemble_fn threads)
           input reset) in
  (forall e, single = Raise e -> ens = Raise e)
  /\ (forall p, single = Ret p -> ens = average_predictions (repeat p K))
  /\ (forall p, single = Ret p -> K = 1 -> ens = Ret p)
  /\ (forall a, single = Ret (PyArr a) -> wf_array a -> 2 <= K ->
        ens = Ret (np_return (map_array (mean_of_copies K) a)))
  /\ (forall row, single = Ret (tuple_of row) -> Forall wf_array row -> 2 <= K ->
        ens = Ret (returned_tuple (map (map_array (mean_of_copies K)) row)))
  /\ (forall a, single = Ret (PyArr a) -> wf_array a ->
        Forall (fun x => mean_of_copies K x = x) (data a) ->
        ens = Ret (if K =? 1 then PyArr a else np_return a))
  /\ (forall row, single = Ret (tuple_of row) -> Forall wf_array row ->
        Forall (fun a => Forall (fun x => mean_of_copies K x = x) (data a)) row ->
        ens = Ret (if K =? 1 then tuple_of row else returned_tuple row))
  /\ (forall a, single = Ret (PyArr a) -> wf_array a -> shape a <> [] ->
        Forall (fun x => mean_of_copies K x = x) (data a) ->
        ens = Ret (PyArr a))
  /\ (forall row, single = Ret (tuple_of row) -> Forall wf_array row ->
        Forall (fun a => shape a <> []) row ->
        Forall (fun a => Forall (fun x => mean_of_copies K x = x) (data a)) row ->
        ens = Ret (tuple_of row)).
Proof.
  intros HK Hperm single ens.
  assert (Hret : forall p, single = Ret p ->
                           ens = average_predictions (repeat p K)).
  { intros p Hp. subst ens. rewrite ensemble_process_combines.
    rewrite (@parallel_process_returns sched (repeat nn K) (repeat p K)
               threads input reset).
    - reflexivity.
    - now rewrite repeat_length.
    - clear HK Hperm. induction K; simpl; constructor; auto. }
  assert (Harr : forall a, single = Ret (PyArr a) -> wf_array a -> 2 <= K ->
                   ens = Ret (np_return (map_array (mean_of_copies K) a))).
  { intros a Ha Hwf H2. rewrite (Hret _ Ha). now apply average_copies_array. }
  assert (Htup : forall row, single = Ret (tuple_of row) ->
                   Forall wf_array row -> 2 <= K ->
                   ens = Ret (returned_tuple
                                (map (map_array (mean_of_copies K)) row))).
  { intros row Hrow Hwf H2. rewrite (Hret _ Hrow).
    now apply average_copies_tuple. }
  assert (Hone : forall p, single = Ret p -> K = 1 -> ens = Ret p).
  { intros p Hp ->. now rewrite (Hret _ Hp). }
  assert (Hexact : forall a, single = Ret (PyArr a) -> wf_array a ->
                     Forall (fun x => mean_of_copies K x = x) (data a) ->
                     ens = Ret (if K =? 1 then PyArr a else np_return a)).
  { intros a Ha Hwf Hfix. destruct (K =? 1) eqn:HK1.
    - apply Nat.eqb_eq in HK1. now apply Hone.
    - apply Nat.eqb_neq in HK1.
      rewrite (Harr a Ha Hwf) by lia. now rewrite map_array_fixed. }
  assert (Hexacts : forall row, single = Ret (tuple_of row) ->
                      Forall wf_array row ->
                      Forall (fun a => Forall (fun x => mean_of_copies K x = x)
                                              (data a)) row ->
                      ens = Ret (if K =? 1 then tuple_of row
                                 else returned_tuple row)).
  { intros row Hrow Hwf Hfix. destruct (K =? 1) eqn:HK1.
    - apply Nat.eqb_eq in HK1. now apply Hone.
    - apply Nat.eqb_neq in HK1.
      rewrite (Htup row Hrow Hwf) by lia. do 3 f_equal.
      rewrite <- (map_id row) at 2. apply map_ext_in. intros a Ha.
      apply map_array_fixed. eapply Forall_forall in Hfix; eauto. }
  split; [|split; [|split; [|split; [|split; [|split; [|split; [|split]]]]]]];
    auto.
  - intros e He. subst ens. rewrite ensemble_process_combines.
    rewrite (@parallel_process_aborts sched K nn threads input reset HK Hperm).
    + fold single. now rewrite He.
    + fold single. rewrite He. discriminate.
  - intros a Ha Hwf Hs Hfix. rewrite (Hexact a Ha Hwf Hfix).
    rewrite (np_return_array _ Hs). now destruct (K =? 1).
  - intros row Hrow Hwf Hs Hfix. rewrite (Hexacts row Hrow Hwf Hfix).
    destruct (K =? 1); [reflexivity|]. unfold returned_tuple, tuple_of.
    do 2 f_equal. apply map_ext_in. intros a Ha.
    apply np_return_array. eapply Forall_forall in Hs; eauto.
Qed.

End Ensembles.

(** * Further properties *)

(** ** average_predictions: errors *)

Section AveragingErrors.

Context {F : Type} {scalar : Scalar F}.

(** Once an addition has failed, [sum] adds nothing more. *)
Lemma sum_stops (xs : list (pyval F)) (o : outcome (pyval F)) :
  (forall v, o <> Ret v) -> fold_left (fun acc x => s <- acc ;; py_add s x) xs o = o.
Proof.
  revert o; induction xs as [|x xs IH]; intros o Ho; simpl; auto.
  destruct o as [v| e |]; [now destruct (Ho v)| |]; cbn [bind]; now apply IH.
Qed.

Lemma np_binop_raises f (a b : ndarray F) e :
  np_binop f a b = Raise e -> e = ValueError.
Proof.
  unfold np_binop. destruct (broadcast_shapes _ _); intros H; congruence.
Qed.

Lemma int_operand_raises z e :
  int_operand (F := F) z = Raise e -> e = OverflowError.
Proof.
  unfold int_operand. destruct (int_fits z); intros H; congruence.
Qed.

Lemma py_add_raises (x y : pyval F) e :
  py_add x y = Raise e ->
  e = TypeError \/ e = ValueError \/ e = OverflowError.
Proof.
  unfold py_add.
  destruct (np_operand x) as [a|] eqn:Hx, (np_operand y) as [b|] eqn:Hy.
  - destruct (np_binop fadd a b) eqn:Hop; cbn [bind]; intros H;
      try discriminate H.
    injection H as <-. right. left. eapply np_binop_raises; eauto.
  - destruct y; try discriminate.
    destruct (int_operand z) eqn:Hz; cbn [bind]; intros H; try discriminate H.
    injection H as <-. right. right. eapply int_operand_raises; eauto.
  - destruct x; try discriminate.
    destruct (int_operand z) eqn:Hz; cbn [bind]; intros H; try discriminate H.
    injection H as <-. right. right. eapply int_operand_raises; eauto.
  - destruct x, y; intros H; try discriminate H;
      injection H as <-; now left.
Qed.

Lemma sum_raises (xs : list (pyval F)) : forall o e,
  fold_left (fun acc x => s <- acc ;; py_add s x) xs o = Raise e ->
  o = Raise e \/ e = TypeError \/ e = ValueError \/ e = OverflowError.
Proof.
  induction xs as [|x xs IH]; intros o e H; simpl in H; auto.
  apply IH in H. destruct H as [H|H]; auto.
  destruct o as [v| e' |]; cbn [bind] in H; auto; try discriminate.
  right. eapply py_add_raises; eauto.
Qed.

Lemma py_truediv_len_raises (x : pyval F) n e :
  n <> 0 -> py_truediv_len x n = Raise e -> e = TypeError.
Proof.
  intros Hn. unfold py_truediv_len.
  destruct x; cbn [np_operand]; intros H; try congruence.
  destruct (n =? 0) eqn:Hz; [|discriminate].
  apply Nat.eqb_eq in Hz. lia.
Qed.

Lemma avg_raises (pred : list (pyval F)) e :
  pred <> [] -> avg pred = Raise e ->
  e = TypeError \/ e = ValueError \/ e = OverflowError.
Proof.
  intros Hne H. unfold avg in H.
  destruct (py_sum pred) as [v| e' |] eqn:Hsum; cbn [bind] in H;
    try discriminate.
  - left.
    apply py_truediv_len_raises with (x := v) (n := length pred); [|exact H].
    destruct pred; [congruence|simpl; lia].
  - injection H as <-. apply sum_raises in Hsum.
    destruct Hsum as [Hsum|Hsum]; [discriminate|exact Hsum].
Qed.

Lemma mapM_raises {A B} (f : A -> outcome B) l e :
  mapM f l = Raise e -> exists x, In x l /\ f x = Raise e.
Proof.
  induction l as [|x l IH]; simpl; [discriminate|].
  destruct (f x) as [y| e' |] eqn:Hx; cbn [bind]; try discriminate.
  - destruct (mapM f l) as [ys| e' |]; cbn [bind]; try discriminate.
    intros H. injection H as <-. destruct IH as [z [Hz Hfz]]; auto.
    exists z. auto.
  - intros H. injection H as <-. exists x. auto.
Qed.

Lemma mapM_returns {A B} (f : A -> outcome B) l ys :
  mapM f l = Ret ys -> Forall2 (fun x y => f x = Ret y) l ys.
Proof.
  revert ys; induction l as [|x l IH]; simpl; intros ys H.
  - injection H as <-. constructor.
  - destruct (f x) as [y| |] eqn:Hx; cbn [bind] in H; try discriminate.
    destruct (mapM f l) as [ys'| |]; cbn [bind] in H; try discriminate.
    injection H as <-. constructor; auto.
Qed.

Lemma py_iter_raises (v : pyval F) e : py_iter v = Raise e -> e = TypeError.
Proof.
  destruct v as [|str|z|a|x|its|its]; cbn [py_iter]; try congruence.
  destruct (shape a); congruence.
Qed.

Lemma uncons_all_lengths {A} (rows : list (list A)) hs ts :
  uncons_all rows = Some (hs, ts) ->
  length hs = length rows
  /\ Forall2 (fun r t => length r = S (length t)) rows ts.
Proof.
  revert hs ts; induction rows as [|r rows IH]; simpl; intros hs ts H.
  - injection H as <- <-. split; auto.
  - destruct r as [|x r]; [discriminate|].
    destruct (uncons_all rows) as [[hs' ts']|]; [|discriminate].
    injection H as <- <-. destruct (IH hs' ts' eq_refl) as [Hl Hf].
    split; simpl; auto.
Qed.

(** Every group that [zip] yields holds one item of every iterator, and no
    more groups are yielded than any iterator has items. *)
Lemma zip_star_groups {A} fuel : forall rows : list (list A),
  Forall (fun g => length g = length rows) (zip_star fuel rows)
  /\ Forall (fun r => length (zip_star fuel rows) <= length r) rows.
Proof.
  induction fuel as [|fuel IH]; intros rows; simpl.
  - split; [constructor|]. apply Forall_forall. intros; lia.
  - destruct (uncons_all rows) as [[hs ts]|] eqn:Hun.
    + destruct (uncons_all_lengths _ Hun) as [Hl Hf].
      destruct (IH ts) as [IH1 IH2].
      pose proof (Forall2_length Hf) as Hlen. split.
      * constructor; [exact Hl|]. now rewrite Hlen.
      * simpl. remember (length (zip_star fuel ts)) as n eqn:Hn.
        clear - Hf IH2. revert IH2.
        induction Hf as [|r t rows ts Hrt _ IHf]; intros IH2; constructor.
        -- inversion IH2; subst. lia.
        -- apply IHf. now inversion IH2.
    + split; [constructor|]. apply Forall_forall. intros; simpl; lia.
Qed.

(** X1.  [average_predictions] raises IndexError on the empty list only, and
    otherwise nothing but TypeError, ValueError and OverflowError (for an
    integer too large for the dtype): no division by zero, for [avg] is
    never applied to an empty group, and no AttributeError. *)
Theorem average_predictions_exceptions (predictions : list (pyval F)) e :
  average_predictions predictions = Raise e ->
  (e = IndexError /\ predictions = [])
  \/ e = TypeError \/ e = ValueError \/ e = OverflowError.
Proof.
  unfold average_predictions.
  destruct predictions as [|first rest].
  - cbn. intros H. injection H as <-. now left.
  - destruct rest as [|second rest]; [discriminate|].
    cbn [length Nat.eqb py_getitem nth_error bind].
    destruct (isinstance_tuple first).
    + destruct (mapM py_iter (first :: second :: rest)) as [iters| e' |] eqn:Hit;
        cbn [bind]; try discriminate.
      * destruct (mapM avg (zip_rows iters)) as [avgs| e' |] eqn:Havg;
          cbn [bind]; try discriminate.
        intros H. injection H as <-. right.
        apply mapM_raises in Havg. destruct Havg as [g [Hg Hraise]].
        apply avg_raises in Hraise; auto.
        intros ->. apply mapM_returns, Forall2_length in Hit.
        destruct iters as [|r iters]; [discriminate|].
        unfold zip_rows in Hg.
        destruct (zip_star_groups (length r) (r :: iters)) as [Hgroups _].
        eapply Forall_forall in Hgroups; eauto. discriminate.
      * intros H. injection H as <-. right. left.
        apply mapM_raises in Hit. destruct Hit as [p [_ Hp]].
        eapply py_iter_raises; eauto.
    + intros H. right. apply avg_raises in H; auto. discriminate.
Qed.

Lemma broadcast_rev_incompatible d e : forall s2 t2 s1 t1,
  length s2 = length t2 -> d <> e -> d <> 1 -> e <> 1 ->
  broadcast_rev (s2 ++ d :: s1) (t2 ++ e :: t1) = None.
Proof.
  induction s2 as [|x s2 IH]; intros [|y t2] s1 t1 Hlen Hde Hd He;
    simpl in Hlen; try discriminate.
  - simpl. destruct (broadcast_rev s1 t1); auto.
    apply Nat.eqb_neq in Hde, Hd, He. now rewrite Hde, Hd, He.
  - simpl. rewrite IH; auto.
Qed.

Lemma broadcast_shapes_incompatible s t :
  incompatible_shapes s t -> broadcast_shapes s t = None.
Proof.
  intros [s1 [d [s2 [t1 [e [t2 [-> [-> [Hlen [Hde [Hd He]]]]]]]]]]].
  unfold broadcast_shapes. rewrite !rev_app_distr. simpl.
  rewrite <- !app_assoc. simpl.
  rewrite broadcast_rev_incompatible; auto. now rewrite !length_rev.
Qed.

(** [sum] of arrays of one shape is an array of that shape. *)
Lemma sum_arrays s (arrs : list (ndarray F)) :
  arrs <> [] -> all_of_shape s arrs ->
  exists acc,
    py_sum (map (@PyArr F) arrs) = Ret (np_return acc)
    /\ shape acc = s /\ wf_array acc.
Proof.
  intros Hne Hall. destruct arrs as [|a rest]; [congruence|].
  inversion Hall as [|? ? [Ha Hwa] Hrest]; subst.
  unfold py_sum. cbn [map fold_left bind]. rewrite py_add_zero.
  assert (Hwf0 : wf_array (map_array (fadd (of_int 0)) a))
    by now apply map_array_wf.
  rewrite (@sum_arrays_from _ _ (shape a)); auto.
  eexists. split; [reflexivity|]. split; [reflexivity|].
  unfold wf_array. cbn [data shape].
  apply (@fold_zip_length _ fadd); [exact Hwf0|].
  apply Forall_map. eapply Forall_impl; [|exact Hrest].
  intros b [Hb Hwb]. unfold wf_array in Hwb. cbn beta. congruence.
Qed.

(** X2.  When the predictions start with arrays of one shape and the next
    array has a shape that cannot be broadcast with it (on some axis,
    counted from the last, the lengths differ and neither is one), the
    addition fails and [average_predictions] raises ValueError, whatever
    follows. *)
Theorem average_predictions_shape_mismatch (s : list nat)
    (arrs : list (ndarray F)) (b : ndarray F) (rest : list (pyval F)) :
  arrs <> [] ->
  all_of_shape s arrs ->
  incompatible_shapes s (shape b) ->
  average_predictions (map (@PyArr F) arrs ++ PyArr b :: rest)
  = Raise ValueError.
Proof.
  intros Hne Hall Hbad.
  destruct (sum_arrays Hne Hall) as [acc [Hsum [Hs Hwf]]].
  unfold average_predictions.
  replace (length (map (@PyArr F) arrs ++ PyArr b :: rest) =? 1) with false.
  2:{ symmetry. apply Nat.eqb_neq. rewrite length_app, length_map. simpl.
      destruct arrs; [congruence|simpl; lia]. }
  destruct arrs as [|a arrs']; [congruence|].
  cbn [map app py_getitem nth_error bind isinstance_tuple].
  unfold avg, py_sum.
  change (PyArr a :: map (@PyArr F) arrs' ++ PyArr b :: rest)
    with (map (@PyArr F) (a :: arrs') ++ PyArr b :: rest).
  rewrite fold_left_app. unfold py_sum in Hsum. rewrite Hsum.
  cbn [fold_left bind].
  rewrite (@py_add_operands _ _ (np_return acc) (PyArr b) acc b
             (np_operand_return Hwf) eq_refl).
  unfold np_binop.
  rewrite Hs, (broadcast_shapes_incompatible Hbad). cbn [bind].
  now rewrite sum_stops by discriminate.
Qed.

Lemma size_of_ones n : size_of (repeat 1 n) = 1.
Proof. induction n; simpl; auto. rewrite IHn. reflexivity. Qed.

Lemma concat_repeat_repeat (x : F) m d :
  concat (repeat (repeat x m) d) = repeat x (d * m).
Proof.
  induction d as [|d IH]; simpl; auto. now rewrite IH, repeat_app.
Qed.

(** One element broadcast to a shape fills it. *)
Lemma expand_ones (x : F) s :
  expand (repeat 1 (length s)) s [x] = repeat x (size_of s).
Proof.
  induction s as [|d s IH]; [reflexivity|].
  cbn [length repeat expand].
  change (size_of (d :: s)) with (d * size_of s).
  destruct (1 =? d) eqn:Hd.
  - apply Nat.eqb_eq in Hd. subst d. cbn [seq flat_map].
    rewrite size_of_ones, app_nil_r. unfold block. cbn [Nat.mul skipn firstn].
    rewrite IH. f_equal. lia.
  - rewrite IH. apply concat_repeat_repeat.
Qed.

Lemma zip_with_repeat (f : F -> F -> F) xs y :
  zip_with f xs (repeat y (length xs)) = map (fun v => f v y) xs.
Proof. induction xs as [|x xs IH]; simpl; auto. now rewrite IH. Qed.

(** An array and a 0-d array: the scalar is combined with every element. *)
Lemma np_binop_scalar (f : F -> F -> F) (a : ndarray F) x :
  wf_array a ->
  np_binop f a (mk_ndarray [] [x])
  = Ret (mk_ndarray (shape a) (map (fun v => f v x) (data a))).
Proof.
  intros Hwf. unfold np_binop. cbn [shape].
  assert (Hb : broadcast_shapes (shape a) [] = Some (shape a)).
  { unfold broadcast_shapes. simpl.
    replace (broadcast_rev (rev (shape a)) []) with (Some (rev (shape a)))
      by now destruct (rev (shape a)).
    simpl. now rewrite rev_involutive. }
  rewrite Hb, (broadcast_to_same Hwf). unfold broadcast_to, pad_shape.
  cbn [shape data length]. rewrite Nat.sub_0_r, app_nil_r, expand_ones.
  rewrite <- Hwf. now rewrite zip_with_repeat.
Qed.

Lemma sum_scalars_from xs : forall acc : ndarray F,
  wf_array acc ->
  fold_left (fun acc x => s <- acc ;; py_add s x)
            (map (fun x => PyArr (mk_ndarray [] [x])) xs) (Ret (np_return acc))
  = Ret (np_return (mk_ndarray (shape acc)
                      (map (fun v => fold_left fadd xs v) (data acc)))).
Proof.
  induction xs as [|x xs IH]; intros acc Hwf; cbn [map fold_left bind].
  - rewrite map_id. now destruct acc.
  - rewrite (@py_add_operands _ _ (np_return acc) (PyArr (mk_ndarray [] [x]))
               acc (mk_ndarray [] [x]) (np_operand_return Hwf) eq_refl).
    rewrite (np_binop_scalar _ _ Hwf). cbn [bind]. rewrite IH.
    + cbn [shape data]. now rewrite map_map.
    + unfold wf_array in *. cbn [shape data]. now rewrite length_map.
Qed.

(** X3.  Predictions need not have one shape: 0-d predictions after an
    array are broadcast, each element of the array being averaged with all
    of them, and the result has the shape of the array (it is a numpy scalar
    when the array is 0-d too). *)
Theorem average_predictions_broadcasts_scalars (a : ndarray F) (xs : list F) :
  wf_array a ->
  xs <> [] ->
  average_predictions (PyArr a :: map (fun x => PyArr (mk_ndarray [] [x])) xs)
  = Ret (np_return (map_array (fun v => mean (v :: xs)) a)).
Proof.
  intros Hwf Hne. unfold average_predictions.
  replace (length (PyArr a :: map (fun x => PyArr (mk_ndarray [] [x])) xs) =? 1)
    with false by (destruct xs; [congruence|reflexivity]).
  cbn [py_getitem nth_error bind isinstance_tuple].
  unfold avg, py_sum. cbn [fold_left bind length].
  rewrite length_map, py_add_zero.
  rewrite sum_scalars_from by now apply map_array_wf.
  cbn [bind]. unfold py_truediv_len.
  rewrite np_operand_return
    by (unfold wf_array, map_array in *; cbn [shape data];
        now rewrite !length_map).
  unfold map_array. cbn [shape data].
  do 3 f_equal. rewrite !map_map. apply map_ext. intros v.
  unfold mean. cbn [length fold_left]. reflexivity.
Qed.

Lemma py_iter_cases (v : pyval F) :
  (exists items, py_iter v = Ret items) \/ py_iter v = Raise TypeError.
Proof.
  destruct v as [|str|z|arr|x|its1|its2]; cbn [py_iter]; eauto.
  destruct (shape arr); eauto.
Qed.

Lemma mapM_py_iter_fails (l : list (pyval F)) :
  Exists (fun p => forall items, py_iter p <> Ret items) l ->
  mapM py_iter l = Raise TypeError.
Proof.
  induction 1 as [p l Hp|p l _ IH]; cbn [mapM];
    destruct (py_iter_cases p) as [[items Hit]| ->]; try reflexivity.
  - now destruct (Hp items).
  - rewrite Hit. cbn [bind]. now rewrite IH.
Qed.

(** X4.  With two predictions or more, [average_predictions] raises
    TypeError when the first one is [None], a string or a list (the integer
    0 cannot be added to it), and when the first one is a tuple while some
    prediction cannot be iterated ([None], an integer, a 0-d array). *)
Theorem average_predictions_rejects (first : pyval F) (rest : list (pyval F)) :
  rest <> [] ->
  ((first = PyNone \/ (exists s, first = PyStr s) \/ (exists l, first = PyList l)) ->
   average_predictions (first :: rest) = Raise TypeError)
  /\ (isinstance_tuple first = true ->
      Exists (fun p => forall items, py_iter p <> Ret items) rest ->
      average_predictions (first :: rest) = Raise TypeError).
Proof.
  intros Hne. destruct rest as [|second rest]; [congruence|]. split.
  - intros Hfirst. unfold average_predictions.
    cbn [length Nat.eqb py_getitem nth_error bind].
    assert (Hsum : py_add (PyInt 0) first = Raise TypeError
                   /\ isinstance_tuple first = false).
    { destruct Hfirst as [->|[[s ->]|[l ->]]]; now split. }
    destruct Hsum as [Hadd ->]. unfold avg, py_sum.
    cbn [fold_left bind]. rewrite Hadd.
    now rewrite sum_stops by discriminate.
  - intros Htup Hbad. unfold average_predictions.
    cbn [length Nat.eqb py_getitem nth_error bind]. rewrite Htup.
    assert (Hiter : mapM py_iter (first :: second :: rest) = Raise TypeError)
      by now apply mapM_py_iter_fails, Exists_cons_tl.
    now rewrite Hiter.
Qed.

Lemma uncons_all_exhausted_inv {A} (rows : list (list A)) :
  uncons_all rows = None -> Exists (fun r => length r = 0) rows.
Proof.
  induction rows as [|r rows IH]; simpl; [discriminate|].
  destruct r as [|x r]; [now constructor|].
  destruct (uncons_all rows) as [[hs ts]|]; [discriminate|].
  intros _. apply Exists_cons_tl. now apply IH.
Qed.

Lemma Exists_Forall2_l {A B} (R : A -> B -> Prop) (P : A -> Prop)
    (Q : B -> Prop) l l' :
  Forall2 R l l' -> (forall x y, R x y -> P x -> Q y) ->
  Exists P l -> Exists Q l'.
Proof.
  intros HR Himp. induction HR as [|x y l l' Hxy _ IH]; intros HP;
    inversion HP; subst; [apply Exists_cons_hd|apply Exists_cons_tl]; eauto.
Qed.

Lemma Exists_Forall2_r {A B} (R : A -> B -> Prop) (P : A -> Prop)
    (Q : B -> Prop) l l' :
  Forall2 R l l' -> (forall x y, R x y -> Q y -> P x) ->
  Exists Q l' -> Exists P l.
Proof.
  intros HR Himp. induction HR as [|x y l l' Hxy _ IH]; intros HQ;
    inversion HQ; subst; [apply Exists_cons_hd|apply Exists_cons_tl]; eauto.
Qed.

(** [zip] yields as many groups as the shortest iterator has items. *)
Lemma zip_star_exact {A} fuel : forall rows : list (list A),
  Exists (fun r => length r <= fuel) rows ->
  Exists (fun r => length r = length (zip_star fuel rows)) rows.
Proof.
  induction fuel as [|fuel IH]; intros rows Hex; simpl.
  - eapply Exists_impl; [|exact Hex]. intros r Hr. simpl in Hr. lia.
  - destruct (uncons_all rows) as [[hs ts]|] eqn:Hun.
    + destruct (uncons_all_lengths _ Hun) as [_ Hf]. simpl.
      apply Exists_Forall2_r
        with (l' := ts) (R := fun r t : list A => length r = S (length t))
             (Q := fun t => length t = length (zip_star fuel ts)).
      * exact Hf.
      * intros r t Hrt Ht. simpl in *. lia.
      * apply IH.
        apply Exists_Forall2_l
          with (l := rows) (R := fun r t : list A => length r = S (length t))
               (P := fun r => length r <= S fuel).
        -- exact Hf.
        -- intros r t Hrt Hr. simpl in *. lia.
        -- exact Hex.
    + now apply uncons_all_exhausted_inv.
Qed.

(** X5.  With two predictions or more, the first a tuple: whatever
    [average_predictions] returns is a tuple, and its arity is that of the
    shortest prediction (the number of items a prediction yields when
    iterated), never more than the arity of any of them. *)
Theorem average_predictions_tuple_arity (first : pyval F)
    (rest : list (pyval F)) (v : pyval F) :
  isinstance_tuple first = true ->
  rest <> [] ->
  average_predictions (first :: rest) = Ret v ->
  exists items rows,
    v = PyTuple items
    /\ Forall2 (fun p r => py_iter p = Ret r) (first :: rest) rows
    /\ Forall (fun r => length items <= length r) rows
    /\ Exists (fun r => length r = length items) rows.
Proof.
  intros Htup Hne. destruct rest as [|second rest]; [congruence|].
  unfold average_predictions.
  cbn [length Nat.eqb py_getitem nth_error bind]. rewrite Htup.
  destruct (mapM py_iter (first :: second :: rest)) as [iters| |] eqn:Hit;
    cbn [bind]; try discriminate.
  destruct (mapM avg (zip_rows iters)) as [avgs| |] eqn:Havg;
    cbn [bind]; try discriminate.
  intros H. injection H as <-.
  apply mapM_returns in Hit. apply mapM_returns, Forall2_length in Havg.
  exists avgs, iters. split; [reflexivity|]. split; [exact Hit|].
  rewrite <- Havg.
  destruct iters as [|r iters]; [inversion Hit|]. unfold zip_rows. split.
  - apply zip_star_groups.
  - apply zip_star_exact. now apply Exists_cons_hd.
Qed.

End AveragingErrors.

(** ** NeuralNetwork: outputs, layer states, composition and reset *)

Section NetworkBehaviour.

Context {F : Type}.

Lemma squeeze_no_unit_axis (a : ndarray F) : no_unit_axis (squeeze a).
Proof.
  unfold no_unit_axis, squeeze. cbn [shape]. apply Forall_forall.
  intros d Hd. apply filter_In in Hd. destruct Hd as [_ Hd].
  apply negb_true_iff, Nat.eqb_neq in Hd. exact Hd.
Qed.

Lemma squeeze_fixed (a : ndarray F) : no_unit_axis a -> squeeze a = a.
Proof.
  intros Hno. destruct a as [s xs]. unfold squeeze, no_unit_axis in *.
  cbn [shape data] in *. f_equal.
  induction Hno as [|d s Hd _ IH]; simpl; auto.
  apply Nat.eqb_neq in Hd. rewrite Hd. simpl. now rewrite IH.
Qed.

Lemma py_squeeze_inv (v w : pyval F) : py_squeeze v = Ret w -> squeezed w.
Proof.
  destruct v as [|str|z|a|x|its|its]; cbn [py_squeeze]; intros H;
    try discriminate; injection H as <-.
  - left. eexists. split; [reflexivity|apply squeeze_no_unit_axis].
  - right. now exists x.
Qed.

Lemma mapM_py_squeeze_inv (items sq : list (pyval F)) :
  mapM py_squeeze items = Ret sq -> Forall (@squeezed F) sq.
Proof.
  intros H. apply mapM_returns in H.
  induction H as [|x y items sq Hxy _ IH]; constructor; auto.
  eapply py_squeeze_inv; eauto.
Qed.

(** X6.  Whatever [process] returns is squeezed: an array without any axis
    of length one or a numpy scalar, or a tuple of such values; never a
    list, and never an array that still has a degenerate axis. *)
Theorem process_returns_squeezed (nn : NeuralNetwork F) (input : pyval F)
    (reset : bool) (v : pyval F) :
  run_out (process nn input reset) = Ret v ->
  squeezed v
  \/ (exists items, v = PyTuple items /\ Forall (@squeezed F) items).
Proof.
  unfold process. cbn [run_out].
  destruct (run_out (feed (layers nn) (at_least_2d input) reset))
    as [d| |]; cbn [bind]; try discriminate.
  unfold squeeze_predictions.
  destruct (py_squeeze d) as [w| e |] eqn:Hsq; cbn [try_except].
  - intros H. injection H as <-. left. eapply py_squeeze_inv; eauto.
  - destruct (is_AttributeError e); [|discriminate].
    destruct (py_iter d) as [items| |]; cbn [bind]; try discriminate.
    destruct (mapM py_squeeze items) as [sq| |] eqn:Hsqs; cbn [bind];
      try discriminate.
    intros H. injection H as <-. right. exists sq. split; [reflexivity|].
    eapply mapM_py_squeeze_inv; eauto.
  - discriminate.
Qed.

(** X7.  [process] keeps the topology of the network and changes a layer
    only through that layer's own call: with [ds] the data handed from layer
    to layer, beginning with the normalised input, every layer that returned
    is left in the state its call on its datum gave, the layer that did not
    return likewise, and the layers after it, which were not called, are
    exactly as they were. *)
Theorem process_keeps_layers (nn : NeuralNetwork F) (input : pyval F)
    (reset : bool) :
  let ls := layers nn in
  let after := run_layers (process nn input reset) in
  exists (ds : list (pyval F)) (k : nat),
    k <= length ls /\ length ds = S k
    /\ length after = length ls
    /\ (forall a, input = PyArr a -> shape a = [] ->
          nth_error ds 0 = Some (PyArr (mk_ndarray [1; 1] (data a))))
    /\ (forall a n, input = PyArr a -> shape a = [n] ->
          nth_error ds 0 = Some (PyArr (mk_ndarray [1; n] (data a))))
    /\ (forall a, input = PyArr a -> 2 <= length (shape a) ->
          nth_error ds 0 = Some input)
    /\ ((forall a, input <> PyArr a) -> nth_error ds 0 = Some input)
    /\ (forall i l d, i < k ->
          nth_error ls i = Some l -> nth_error ds i = Some d ->
          exists d' st,
            l_call l (l_state l) d reset = (Ret d', st)
            /\ nth_error ds (S i) = Some d'
            /\ nth_error after i = Some (mk_Layer st (l_call l) (l_reset l)))
    /\ (k < length ls ->
          exists l d o st,
            nth_error ls k = Some l /\ nth_error ds k = Some d
            /\ l_call l (l_state l) d reset = (o, st)
            /\ (forall v, o <> Ret v)
            /\ nth_error after k = Some (mk_Layer st (l_call l) (l_reset l))
            /\ forall j, k < j -> nth_error after j = nth_error ls j).
Proof.
  intros ls after.
  destruct (feed_trace reset ls (at_least_2d input))
    as [ds [k [Hk [Hlen [Hhd [Hlay [Hchain [Hfail _]]]]]]]].
  destruct (at_least_2d_cases input) as [N0 [N1 [N2 N3]]].
  exists ds, k. subst after. unfold process. cbn [run_layers]. fold ls.
  split; [exact Hk|]. split; [exact Hlen|]. split; [exact Hlay|].
  split; [intros a Ha Hs; now rewrite Hhd, (N0 a Ha Hs)|].
  split; [intros a n Ha Hs; now rewrite Hhd, (N1 a n Ha Hs)|].
  split; [intros a Ha Hs; now rewrite Hhd, (N2 a Ha Hs)|].
  split; [intros Hnot; now rewrite Hhd, (N3 Hnot)|].
  split.
  - intros i l d Hi Hl Hd.
    destruct (Hchain i l d Hi Hl Hd) as [d' [st [H1 [H2 H3]]]].
    exists d', st. now repeat split.
  - intros Hlt. destruct (Hfail Hlt) as [l [d [o [st H]]]].
    destruct H as [H1 [H2 [H3 [H4 [_ [H6 H7]]]]]].
    exists l, d, o, st. now repeat split.
Qed.

Lemma feed_app (ls1 ls2 : list (Layer F)) (reset : bool) : forall d,
  feed (ls1 ++ ls2) d reset
  = let r1 := feed ls1 d reset in
    match run_out r1 with
    | Ret d' =>
        let r2 := feed ls2 d' reset in
        mk_run (run_out r2) (run_layers r1 ++ run_layers r2)
               (run_calls r1 ++ run_calls r2)
    | o => mk_run o (run_layers r1 ++ ls2) (run_calls r1)
    end.
Proof.
  induction ls1 as [|l ls1 IH]; intros d; cbn [app feed].
  - cbn. now destruct (feed ls2 d reset).
  - destruct (call_layer l d reset) as [[d'| e |] l']; cbn; try reflexivity.
    rewrite IH. cbn.
    destruct (run_out (feed ls1 d' reset)); reflexivity.
Qed.

(** X8.  Networks compose when nothing is squeezed in between: if the
    layers of the first network return an array of two dimensions or more
    without any axis of length one, the network made of the layers of both
    returns what the second network returns on the prediction of the
    first. *)
Theorem process_composes (nn1 nn2 : NeuralNetwork F) (input : pyval F)
    (reset : bool) (a : ndarray F) :
  run_out (feed (layers nn1) (at_least_2d input) reset) = Ret (PyArr a) ->
  no_unit_axis a ->
  2 <= ndim a ->
  run_out (process nn1 input reset) = Ret (PyArr a)
  /\ run_out (process (mk_NeuralNetwork (layers nn1 ++ layers nn2)) input reset)
     = run_out (process nn2 (PyArr a) reset).
Proof.
  intros Hfeed Hno Hnd. unfold process. cbn [run_out layers].
  rewrite feed_app. cbn zeta. rewrite Hfeed. cbn [run_out bind].
  split.
  - unfold squeeze_predictions. cbn [py_squeeze try_except].
    now rewrite squeeze_fixed.
  - cbn [at_least_2d].
    replace (ndim a <? 2) with false by (symmetry; apply Nat.ltb_ge; lia).
    reflexivity.
Qed.

Lemma feed_twice (ls : list (Layer F)) :
  Forall (@starts_afresh F) ls ->
  forall d,
    run_out (feed (run_layers (feed ls d true)) d true)
    = run_out (feed ls d true)
    /\ run_layers (feed (run_layers (feed ls d true)) d true)
       = run_layers (feed ls d true).
Proof.
  induction 1 as [|l ls Hl _ IH]; intros d; cbn [feed].
  - now split.
  - destruct (l_call l (l_state l) d true) as [o st] eqn:Hcall.
    assert (Hfirst : call_layer l d true = (o, with_state l st))
      by (unfold call_layer; now rewrite Hcall).
    assert (Hagain : call_layer (with_state l st) d true = (o, with_state l st)).
    { unfold call_layer, with_state. cbn [l_state l_call l_reset].
      now rewrite (Hl st (l_state l) d), Hcall. }
    rewrite !Hfirst.
    destruct o as [d'| e |]; cbn [run_out run_layers feed]; rewrite Hagain;
      cbn [run_out run_layers]; auto.
    destruct (IH d') as [H1 H2]. now rewrite H1, H2.
Qed.

(** X9.  On a network whose layers start afresh when called with
    [reset=True], processing the same input twice with [reset=True] gives
    the same outcome twice and leaves the layers in the same states. *)
Theorem process_twice (nn : NeuralNetwork F) (input : pyval F) :
  Forall (@starts_afresh F) (layers nn) ->
  let first := process nn input true in
  let second := process (network_after first) input true in
  run_out second = run_out first /\ run_layers second = run_layers first.
Proof.
  intros Hall. unfold process, network_after. cbn [run_out run_layers layers].
  destruct (feed_twice Hall (at_least_2d input)) as [H1 H2].
  now rewrite H1, H2.
Qed.

Lemma reset_layers_all (ls : list (Layer F)) :
  Forall (fun l => exists v, fst (l_reset l (l_state l)) = Ret v) ls ->
  reset_layers ls = (Ret PyNone, map (@after_reset F) ls).
Proof.
  induction 1 as [|l ls [v Hl] _ IH]; cbn [reset_layers map]; auto.
  unfold reset_layer, after_reset.
  destruct (l_reset l (l_state l)) as [o st]. cbn [fst snd] in *. subst o.
  now rewrite IH.
Qed.

(** X10.  When the [reset()] of every layer returns, [reset] returns [None]
    and leaves every layer, in place, in the state its own [reset()] put it
    in. *)
Theorem reset_resets_every_layer (nn : NeuralNetwork F) :
  Forall (fun l => exists v, fst (l_reset l (l_state l)) = Ret v) (layers nn) ->
  reset nn = (Ret PyNone, mk_NeuralNetwork (map (@after_reset F) (layers nn))).
Proof.
  intros Hall. unfold reset. now rewrite reset_layers_all.
Qed.

(** X11.  When the [reset()] of a layer raises, [reset] raises the same
    exception; the layers before it have been reset, and the layers after it
    are not reset. *)
Theorem reset_stops_at_failure (before after : list (Layer F)) (l : Layer F)
    (e : exn) :
  Forall (fun l => exists v, fst (l_reset l (l_state l)) = Ret v) before ->
  fst (l_reset l (l_state l)) = Raise e ->
  reset (mk_NeuralNetwork (before ++ l :: after))
  = (Raise e,
     mk_NeuralNetwork (map (@after_reset F) before ++ after_reset l :: after)).
Proof.
  intros Hbefore Hl. unfold reset. cbn [layers].
  assert (H : reset_layers (before ++ l :: after)
              = (Raise e, map (@after_reset F) before ++ after_reset l :: after)).
  { induction Hbefore as [|b before [v Hb] _ IH]; cbn [app map reset_layers].
    - unfold reset_layer, after_reset.
      destruct (l_reset l (l_state l)) as [o st]. cbn [fst snd] in *.
      now subst o.
    - unfold reset_layer at 1. unfold after_reset at 1.
      destruct (l_reset b (l_state b)) as [o st]. cbn [fst snd] in *. subst o.
      now rewrite IH. }
  now rewrite H.
Qed.

Lemma feed_after_reset (ls : list (Layer F)) :
  Forall (@reset_is_flag F) ls ->
  forall d,
    run_out (feed (map (@after_reset F) ls) d false) = run_out (feed ls d true)
    /\ (forall d', run_out (feed ls d true) = Ret d' ->
          run_layers (feed (map (@after_reset F) ls) d false)
          = run_layers (feed ls d true)).
Proof.
  induction 1 as [|l ls Hl _ IH]; intros d; cbn [map feed].
  - split; auto.
  - destruct (Hl (l_state l) d) as [_ Hflag].
    unfold call_layer, after_reset, with_state. cbn [l_state l_call l_reset].
    rewrite Hflag.
    destruct (l_call l (l_state l) d true) as [[d'| e |] st];
      cbn [run_out run_layers]; try (split; [reflexivity|discriminate]).
    destruct (IH d') as [H1 H2]. split; [exact H1|].
    intros d'' Hd''. f_equal. now apply H2 with (d' := d'').
Qed.

(** X12.  On a network whose layers treat [reset=True] as [reset()] followed
    by a call with [reset=False]: [reset()] returns, and processing after it
    with [reset=False] gives the outcome of processing with [reset=True],
    and, when that outcome is a value, the same states of the layers. *)
Theorem reset_then_process (nn : NeuralNetwork F) (input : pyval F) :
  Forall (@reset_is_flag F) (layers nn) ->
  fst (reset nn) = Ret PyNone
  /\ run_out (process (snd (reset nn)) input false)
     = run_out (process nn input true)
  /\ (forall v, run_out (process nn input true) = Ret v ->
        run_layers (process (snd (reset nn)) input false)
        = run_layers (process nn input true)).
Proof.
  intros Hall.
  assert (Hreset : reset nn
                   = (Ret PyNone,
                      mk_NeuralNetwork (map (@after_reset F) (layers nn)))).
  { unfold reset. rewrite reset_layers_all; auto.
    eapply Forall_impl; [|exact Hall]. intros l Hl.
    apply (Hl (l_state l) PyNone). }
  rewrite Hreset. cbn [fst snd]. unfold process. cbn [run_out run_layers layers].
  destruct (feed_after_reset Hall (at_least_2d input)) as [H1 H2].
  split; [reflexivity|]. split; [now rewrite H1|].
  intros v Hv.
  destruct (run_out (feed (layers nn) (at_least_2d input) true)) as [d| |] eqn:Hd;
    try discriminate Hv.
  now apply H2 with (d' := d).
Qed.

End NetworkBehaviour.

(** ** From the networks to the combined prediction, and loading *)

Section Combination.

Context {F : Type} {scalar : Scalar F}.

Lemma slots_of_common_shapes ss (row : list (ndarray F)) :
  map (@shape F) row = ss -> Forall wf_array row ->
  slots_of_shapes (length ss) ss row.
Proof.
  intros Hs Hwf.
  assert (HK : length row = length ss) by now rewrite <- Hs, length_map.
  split; [lia|]. intros i Hi. unfold slot. split.
  - rewrite <- Hs. symmetry.
    exact (map_nth (@shape F) row (mk_ndarray [] []) i).
  - eapply Forall_forall; [exact Hwf|]. apply nth_In. lia.
Qed.

Lemma size_of_squeezed s :
  size_of (filter (fun d => negb (d =? 1)) s) = size_of s.
Proof.
  induction s as [|d s IH]; simpl; auto.
  destruct (d =? 1) eqn:Hd; simpl.
  - apply Nat.eqb_eq in Hd. subst d. rewrite IH. lia.
  - now rewrite IH.
Qed.

Lemma squeeze_wf (a : ndarray F) : wf_array a -> wf_array (squeeze a).
Proof.
  unfold wf_array, squeeze. cbn [shape data]. now rewrite size_of_squeezed.
Qed.

(** X13.  Multi-task networks and the combiner fit together: when the last
    layer of each of N >= 2 networks returns a list of arrays, [process]
    turns each list into a tuple, so that [average_predictions] takes its
    tuple path on the predictions and returns the tuple of the slotwise
    means of the squeezed arrays (slot i holding one shape once squeezed; a
    0-d mean is a numpy scalar). *)
Theorem multi_task_predictions_average (nets : list (NeuralNetwork F))
    (rows : list (list (ndarray F))) (ss : list (list nat))
    (input : pyval F) (reset : bool) :
  2 <= length nets ->
  Forall2 (fun nn row =>
             run_out (feed (layers nn) (at_least_2d input) reset)
             = Ret (PyList (map (@PyArr F) row)))
          nets rows ->
  Forall (fun row => map (@shape F) (map (@squeeze F) row) = ss
                     /\ Forall wf_array row) rows ->
  exists preds,
    Forall2 (fun nn p => run_out (process nn input reset) = Ret p) nets preds
    /\ Forall (fun p => isinstance_tuple p = true) preds
    /\ average_predictions preds
       = Ret (returned_tuple (slot_means (length ss) ss
                                (map (map (@squeeze F)) rows))).
Proof.
  intros Hlen Hfeed Hrows.
  exists (map tuple_of (map (map (@squeeze F)) rows)).
  pose proof (Forall2_length Hfeed) as Hn.
  split; [|split].
  - clear Hlen Hrows Hn. induction Hfeed as [|nn row nets rows Hnn _ IH];
      cbn [map]; constructor; auto.
    unfold process. cbn [run_out]. rewrite Hnn. cbn [bind].
    unfold squeeze_predictions.
    cbn [py_squeeze try_except is_AttributeError py_iter bind].
    rewrite mapM_py_squeeze. cbn [bind]. unfold tuple_of. now rewrite map_map.
  - apply Forall_map, Forall_map, Forall_forall. reflexivity.
  - apply average_first_tuple.
    + rewrite length_map. lia.
    + apply py_iter_tuples.
    + destruct rows as [|row rows]; [simpl in Hn; lia|].
      eexists. split; reflexivity.
    + apply Forall_map. eapply Forall_impl; [|exact Hrows].
      intros row [Hs Hwf]. apply slots_of_common_shapes; auto.
      apply Forall_map. eapply Forall_impl; [|exact Hwf].
      intros a. apply squeeze_wf.
    + destruct rows as [|row rows]; [simpl in Hn; lia|].
      cbn [map]. apply Exists_cons_hd.
      inversion Hrows as [|? ? [Hs _] _]. rewrite <- Hs. now rewrite !length_map.
Qed.

(** X14.  [load] keeps the order of the files: when every file loads, the
    ensemble is the one constructed from the loaded networks, one for each
    file, in the order of [nn_files], with the combiner and the number of
    threads it was given. *)
Theorem load_keeps_order (load_network : string -> outcome (NeuralNetwork F))
    (nn_files : list string) (nets : list (NeuralNetwork F))
    (fn : option (combiner (F := F))) (threads : option nat) :
  Forall2 (fun f nn => load_network f = Ret nn) nn_files nets ->
  NeuralNetworkEnsemble_load load_network nn_files fn threads
  = Ret (NeuralNetworkEnsemble_init nets fn threads)
  /\ length nets = length nn_files.
Proof.
  intros Hall. split; [|symmetry; apply (Forall2_length Hall)].
  unfold NeuralNetworkEnsemble_load.
  replace (mapM load_network nn_files) with (Ret nets); [reflexivity|].
  symmetry. induction Hall as [|f nn fs nets Hf _ IH]; cbn [mapM]; auto.
  now rewrite Hf, IH.
Qed.

(** X15.  [load] builds no ensemble when a file fails to load: the exception
    of the first file that fails is raised. *)
Theorem load_fails (load_network : string -> outcome (NeuralNetwork F))
    (before after : list string) (f : string) (e : exn)
    (fn : option (combiner (F := F))) (threads : option nat) :
  Forall (fun g => exists nn, load_network g = Ret nn) before ->
  load_network f = Raise e ->
  NeuralNetworkEnsemble_load load_network (before ++ f :: after) fn threads
  = Raise e.
Proof.
  intros Hbefore Hf. unfold NeuralNetworkEnsemble_load.
  replace (mapM load_network (before ++ f :: after))
    with (@Raise (list (NeuralNetwork F)) e); [reflexivity|].
  symmetry. induction Hbefore as [|g before [nn Hg] _ IH]; cbn [app mapM].
  - now rewrite Hf.
  - now rewrite Hg, IH.
Qed.

End Combination.

(** * The claims on binary64 arrays *)

Import Float64.

#[local] Open Scope float_scope.

(** ** average_predictions *)

(** The example of the specification: [(1.0, 10.0), (3.0, 20.0)] combine to
    (2.0, 15.0). *)
Lemma average_predictions_tuples_witness :
  average_predictions
    [PyTuple [scalar0 1; scalar0 10]; PyTuple [scalar0 3; scalar0 20]]
  = Ret (PyTuple [PyScalar 2; PyScalar 15]).
Proof.
  pose proof (@average_predictions_tuples float float64 [[]; []]
                [[mk_ndarray [] [1]; mk_ndarray [] [10]];
                 [mk_ndarray [] [3]; mk_ndarray [] [20]]]) as H.
  cbv zeta in H. destruct H as [H _].
  - simpl. lia.
  - repeat constructor.
  - exact H.
Defined.

(** The example of the specification: the one-element arrays [1.0] and [3.0]
    combine to [2.0]. *)
Lemma average_predictions_arrays_witness :
  exists r,
    average_predictions [vector [1]; vector [3]] = Ret (PyArr r)
    /\ shape r = [1%nat]
    /\ element 0 r = 2.
Proof.
  destruct (@average_predictions_arrays float float64 [1%nat]
              [mk_ndarray [1%nat] [1]; mk_ndarray [1%nat] [3]])
    as [r [Hr [Hs [_ Hmean]]]].
  - simpl. lia.
  - repeat constructor.
  - exists r. split; [|split; [exact Hs|]].
    + change (average_predictions [vector [1]; vector [3]]) with
        (average_predictions
           (map (@PyArr float)
                [mk_ndarray [1%nat] [1]; mk_ndarray [1%nat] [3]])).
      rewrite Hr. apply f_equal, np_return_array. rewrite Hs. discriminate.
    + rewrite (Hmean 0%nat); [reflexivity|simpl; lia].
Defined.

(** Only the first prediction has to be a tuple: a list after it is zipped
    like a tuple. *)
Example average_predictions_tuple_then_list :
  average_predictions
    [PyTuple [scalar0 1; scalar0 10]; PyList [scalar0 3; scalar0 20]]
  = Ret (PyTuple [PyScalar 2; PyScalar 15]).
Proof. reflexivity. Qed.

(** Tuples of arities two and one are combined without any error, into a
    tuple of arity one: the claim C8 fails here. *)
Lemma average_predictions_ragged_returns :
  average_predictions [PyTuple [scalar0 1; scalar0 10]; PyTuple [scalar0 3]]
  = Ret (PyTuple [PyScalar 2])
  /\ forall e,
       average_predictions
         [PyTuple [scalar0 1; scalar0 10]; PyTuple [scalar0 3]]
       <> Raise e.
Proof. split; [reflexivity|discriminate]. Qed.

Lemma average_predictions_ragged_tuples_witness :
  average_predictions
    [PyTuple [scalar0 1; scalar0 10; scalar0 100]; PyTuple [scalar0 3; scalar0 20]]
  = Ret (PyTuple [PyScalar 2; PyScalar 15]).
Proof.
  destruct (@average_predictions_ragged_tuples float float64 2 [[]; []]
              [[mk_ndarray [] [1]; mk_ndarray [] [10]; mk_ndarray [] [100]];
               [mk_ndarray [] [3]; mk_ndarray [] [20]]]) as [H _].
  - simpl. lia.
  - repeat constructor; simpl; try lia;
      destruct i as [|[|i]]; try reflexivity; lia.
  - apply Exists_cons_tl, Exists_cons_hd. reflexivity.
  - apply Exists_cons_hd. discriminate.
  - exact H.
Defined.

(** ** NeuralNetworkEnsemble *)

Lemma schedule_201 : Permutation [2; 0; 1]%nat (seq 0 3).
Proof.
  apply perm_trans with (l' := [0; 2; 1]%nat).
  - apply perm_swap.
  - apply perm_skip, perm_swap.
Defined.

(** Three networks, completing in the order 2, 0, 1. *)
Lemma ensemble_without_combiner_witness :
  fst (ensemble_process [2; 0; 1]%nat
         (NeuralNetworkEnsemble_init
            [shift_network 1; shift_network 2; shift_network 3] None None)
         (vector [0.5; 0.25]) true)
  = Ret (PyList [vector [1.5; 1.25]; vector [2.5; 2.25]; vector [3.5; 3.25]]).
Proof.
  destruct (@ensemble_without_combiner float [2; 0; 1]%nat
              [shift_network 1; shift_network 2; shift_network 3]
              [vector [1.5; 1.25]; vector [2.5; 2.25]; vector [3.5; 3.25]]
              None (vector [0.5; 0.25]) true) as [H _].
  - exact schedule_201.
  - repeat constructor.
  - exact H.
Defined.

(** Three copies of a network whose prediction is [0.5, 0.25]: the means of
    three copies are exact, and the ensemble returns the prediction. *)
Lemma ensemble_of_identical_networks_witness :
  fst (ensemble_process [2; 0; 1]%nat
         (NeuralNetworkEnsemble_init (repeat empty_net 3) default_ensemble_fn
            None)
         (vector [0.5; 0.25]) true)
  = Ret (vector [0.5; 0.25]).
Proof.
  pose proof (@ensemble_of_identical_networks float float64 3 [2; 0; 1]%nat
                empty_net None (vector [0.5; 0.25]) true) as H.
  cbv zeta in H. destruct H as [_ [_ [_ [_ [_ [H _]]]]]].
  - lia.
  - exact schedule_201.
  - apply (H (mk_ndarray [2%nat] [0.5; 0.25])).
    + reflexivity.
    + reflexivity.
    + repeat constructor.
Defined.

(** The example of the specification: three identical networks, each
    predicting [0.5, 0.2].  The sum 0.2 + 0.2 + 0.2 is rounded to
    0.6000000000000001 and its third to 0.20000000000000004: the ensemble
    does not return the prediction of a member, and the claim C7 fails. *)
Lemma ensemble_of_identical_networks_inexact :
  run_out (process empty_net (vector [0.5; 0.2]) true)
  = Ret (vector [0.5; 0.2])
  /\ fst (ensemble_process [0; 1; 2]%nat
            (NeuralNetworkEnsemble_init (repeat empty_net 3)
               default_ensemble_fn None)
            (vector [0.5; 0.2]) true)
     = Ret (vector [0.5; 0.20000000000000004])
  /\ fst (ensemble_process [0; 1; 2]%nat
            (NeuralNetworkEnsemble_init (repeat empty_net 3)
               default_ensemble_fn None)
            (vector [0.5; 0.2]) true)
     <> run_out (process empty_net (vector [0.5; 0.2]) true).
Proof.
  split; [reflexivity|]. split; [reflexivity|].
  intros H. apply (f_equal second_element) in H.
  vm_compute in H. discriminate H.
Qed.

(** ** NeuralNetwork *)

(** A vector is reshaped to one row for the layers, and the prediction is
    squeezed back. *)
Example process_shift_network :
  let r := process (shift_network 1) (vector [0.5; 0.25]) true in
  map (@inv_data float) (run_calls r)
  = [PyArr (mk_ndarray [1; 2]%nat [0.5; 0.25])]
  /\ run_out r = Ret (vector [1.5; 1.25]).
Proof. split; reflexivity. Qed.

(** A multi-task network returns the tuple of its squeezed outputs. *)
Example process_two_tasks :
  run_out (process (mk_NeuralNetwork [shift_layer 1; two_task_layer])
             (vector [0.5; 0.25]) true)
  = Ret (PyTuple [vector [1.5; 1.25]; vector [2.5; 2.25]]).
Proof. reflexivity. Qed.

(** An AttributeError raised by a layer is not taken for the multi-task
    case: it propagates, and the layers after it are not called. *)
Example process_layer_raises :
  let r := process (mk_NeuralNetwork
                      [shift_layer 1; failing_layer AttributeError;
                       two_task_layer])
                   (vector [0.5; 0.25]) true in
  run_out r = Raise AttributeError /\ length (run_calls r) = 2%nat.
Proof. split; reflexivity. Qed.

(** * The further properties on binary64 arrays *)

(** ** average_predictions *)

(** An integer beyond the range of doubles among the predictions. *)
Lemma average_predictions_exceptions_witness :
  (OverflowError = IndexError /\ [vector [0.5]; PyInt (10 ^ 400)] = [])
  \/ OverflowError = TypeError \/ OverflowError = ValueError
  \/ OverflowError = OverflowError.
Proof.
  apply (@average_predictions_exceptions float float64
           [vector [0.5]; PyInt (10 ^ 400)] OverflowError).
  vm_compute. reflexivity.
Defined.

(** The conversion of integers at the edges: 2^53 + 1 is rounded to even,
    and the largest double is the last value that fits. *)
Example float_of_int_range :
  float_of_int (2 ^ 53 + 1) = 9007199254740992
  /\ float_of_int (2 ^ 53 + 3) = 9007199254740996
  /\ float_of_int (2 ^ 63) = 9223372036854775808
  /\ float_fits (2 ^ 1024 - 2 ^ 970 - 1) = true
  /\ float_fits (2 ^ 1024 - 2 ^ 970) = false.
Proof. vm_compute. repeat split. Qed.

(** An integer is converted to the nearest double: 2^63 is added as
    9223372036854775808.0. *)
Example average_predictions_large_int :
  average_predictions [vector [0.5]; PyInt (2 ^ 63)]
  = Ret (vector [4611686018427387904]).
Proof. vm_compute. reflexivity. Qed.

(** Arrays of shapes (2, 3) and (4, 3). *)
Lemma average_predictions_shape_mismatch_witness :
  average_predictions
    [PyArr (mk_ndarray [2; 3]%nat [1; 2; 3; 4; 5; 6]);
     PyArr (mk_ndarray [4; 3]%nat [1; 2; 3; 4; 5; 6; 7; 8; 9; 10; 11; 12])]
  = Raise ValueError.
Proof.
  apply (@average_predictions_shape_mismatch float float64 [2; 3]%nat
           [mk_ndarray [2; 3]%nat [1; 2; 3; 4; 5; 6]]
           (mk_ndarray [4; 3]%nat [1; 2; 3; 4; 5; 6; 7; 8; 9; 10; 11; 12]) []).
  - discriminate.
  - repeat constructor.
  - exists [], 2%nat, [3%nat], [], 4%nat, [3%nat]. repeat split; discriminate.
Defined.

(** A vector and a scalar. *)
Lemma average_predictions_broadcasts_scalars_witness :
  average_predictions [vector [1; 2]; scalar0 3] = Ret (vector [2; 2.5]).
Proof.
  apply (@average_predictions_broadcasts_scalars float float64
           (mk_ndarray [2%nat] [1; 2]) [3]).
  - reflexivity.
  - discriminate.
Defined.

(** Lists in the place of arrays, and a scalar after a tuple. *)
Lemma average_predictions_rejects_witness :
  average_predictions [PyList [scalar0 1]; PyList [scalar0 3]] = Raise TypeError
  /\ average_predictions [PyTuple [scalar0 1]; scalar0 3] = Raise TypeError.
Proof.
  split.
  - destruct (@average_predictions_rejects float float64
                (PyList [scalar0 1]) [PyList [scalar0 3]]) as [H _].
    + discriminate.
    + apply H. right. right. now exists [scalar0 1].
  - destruct (@average_predictions_rejects float float64
                (PyTuple [scalar0 1]) [scalar0 3]) as [_ H].
    + discriminate.
    + apply H; [reflexivity|]. apply Exists_cons_hd. discriminate.
Defined.

Lemma average_predictions_tuple_arity_witness :
  exists items rows,
    PyTuple [PyScalar 2; PyScalar 15] = PyTuple items
    /\ Forall2 (fun p r => py_iter p = Ret r)
               [PyTuple [scalar0 1; scalar0 10; scalar0 100];
                PyTuple [scalar0 3; scalar0 20]] rows
    /\ Forall (fun r => (length items <= length r)%nat) rows
    /\ Exists (fun r => length r = length items) rows.
Proof.
  apply (@average_predictions_tuple_arity float float64
           (PyTuple [scalar0 1; scalar0 10; scalar0 100])
           [PyTuple [scalar0 3; scalar0 20]]).
  - reflexivity.
  - discriminate.
  - reflexivity.
Defined.

(** ** NeuralNetwork *)

Lemma process_returns_squeezed_witness :
  squeezed (PyTuple [vector [1.5; 1.25]; vector [2.5; 2.25]])
  \/ (exists items,
        PyTuple [vector [1.5; 1.25]; vector [2.5; 2.25]] = PyTuple items
        /\ Forall (@squeezed float) items).
Proof.
  apply (@process_returns_squeezed float
           (mk_NeuralNetwork [shift_layer 1; two_task_layer])
           (vector [0.5; 0.25]) true).
  reflexivity.
Defined.

(** A numpy scalar is not an array: it reaches the first layer as it is,
    while the 0-d array of the same value is given two dimensions. *)
Example process_scalar_input :
  map (@inv_data float) (run_calls (process (shift_network 1) (PyScalar 0.5) true))
  = [PyScalar 0.5]
  /\ map (@inv_data float) (run_calls (process (shift_network 1) (scalar0 0.5) true))
     = [PyArr (mk_ndarray [1; 1]%nat [0.5])]
  /\ run_out (process (shift_network 1) (PyScalar 0.5) true) = Ret (PyScalar 1.5)
  /\ run_out (process (shift_network 1) (scalar0 0.5) true) = Ret (scalar0 1.5).
Proof. repeat split. Qed.

(** The counting layer is left in the state its call gave; the layer after
    a failing layer is not touched. *)
Example process_layer_states :
  map (@l_state float)
      (run_layers (process (mk_NeuralNetwork
                              [counting_layer; failing_layer ValueError;
                               with_state counting_layer (PyInt 7)])
                           (vector [0.5; 0.25]) false))
  = [PyInt 1; PyNone; PyInt 7].
Proof. reflexivity. Qed.

(** Two shifts on a 2 x 2 input. *)
Lemma process_composes_witness :
  run_out (process (shift_network 1)
             (PyArr (mk_ndarray [2; 2]%nat [1; 2; 3; 4])) true)
  = Ret (PyArr (mk_ndarray [2; 2]%nat [2; 3; 4; 5]))
  /\ run_out (process (mk_NeuralNetwork [shift_layer 1; shift_layer 2])
                (PyArr (mk_ndarray [2; 2]%nat [1; 2; 3; 4])) true)
     = run_out (process (shift_network 2)
                  (PyArr (mk_ndarray [2; 2]%nat [2; 3; 4; 5])) true).
Proof.
  apply (@process_composes float (shift_network 1) (shift_network 2)
           (PyArr (mk_ndarray [2; 2]%nat [1; 2; 3; 4])) true
           (mk_ndarray [2; 2]%nat [2; 3; 4; 5])).
  - reflexivity.
  - repeat constructor; discriminate.
  - unfold ndim. simpl. lia.
Defined.

Lemma counting_layer_starts_afresh : starts_afresh counting_layer.
Proof. intros st st' d. reflexivity. Defined.

Lemma counting_layer_reset_is_flag st : reset_is_flag (with_state counting_layer st).
Proof. intros st0 d. split; [now exists PyNone|reflexivity]. Defined.

(** Without [reset], the second call of the counting layer adds one more. *)
Example counting_layer_counts :
  let first := process (mk_NeuralNetwork [counting_layer]) (vector [0.5; 0.25])
                       false in
  run_out first = Ret (vector [0.5; 0.25])
  /\ run_out (process (network_after first) (vector [0.5; 0.25]) false)
     = Ret (vector [1.5; 1.25]).
Proof. split; reflexivity. Qed.

Lemma process_twice_witness :
  run_out (process
             (network_after
                (process (mk_NeuralNetwork [counting_layer; counting_layer])
                         (vector [0.5; 0.25]) true))
             (vector [0.5; 0.25]) true)
  = Ret (vector [0.5; 0.25]).
Proof.
  pose proof (@process_twice float
                (mk_NeuralNetwork [counting_layer; counting_layer])
                (vector [0.5; 0.25])) as H.
  cbv zeta in H. destruct H as [H _].
  - apply Forall_cons; [exact counting_layer_starts_afresh|].
    apply Forall_cons; [exact counting_layer_starts_afresh|apply Forall_nil].
  - rewrite H. reflexivity.
Defined.

Lemma reset_resets_every_layer_witness :
  reset (mk_NeuralNetwork [with_state counting_layer (PyInt 5); shift_layer 1])
  = (Ret PyNone, mk_NeuralNetwork [counting_layer; shift_layer 1]).
Proof.
  apply (@reset_resets_every_layer float
           (mk_NeuralNetwork [with_state counting_layer (PyInt 5);
                              shift_layer 1])).
  repeat constructor; now exists PyNone.
Defined.

Lemma reset_stops_at_failure_witness :
  reset (mk_NeuralNetwork
           [with_state counting_layer (PyInt 5);
            unresettable_layer ValueError;
            with_state counting_layer (PyInt 7)])
  = (Raise ValueError,
     mk_NeuralNetwork
       [counting_layer; unresettable_layer ValueError;
        with_state counting_layer (PyInt 7)]).
Proof.
  apply (@reset_stops_at_failure float
           [with_state counting_layer (PyInt 5)]
           [with_state counting_layer (PyInt 7)]
           (unresettable_layer ValueError) ValueError).
  - repeat constructor. now exists PyNone.
  - reflexivity.
Defined.

Lemma reset_then_process_witness :
  run_out (process
             (snd (reset (mk_NeuralNetwork [with_state counting_layer (PyInt 5)])))
             (vector [0.5; 0.25]) false)
  = Ret (vector [0.5; 0.25])
  /\ run_out (process (mk_NeuralNetwork [with_state counting_layer (PyInt 5)])
                (vector [0.5; 0.25]) false)
     = Ret (vector [5.5; 5.25]).
Proof.
  destruct (@reset_then_process float
              (mk_NeuralNetwork [with_state counting_layer (PyInt 5)])
              (vector [0.5; 0.25])) as [_ [H _]].
  - apply Forall_cons; [apply counting_layer_reset_is_flag|apply Forall_nil].
  - split; [rewrite H|]; reflexivity.
Defined.

(** ** From the networks to the combined prediction, and loading *)

Lemma multi_task_predictions_average_witness :
  exists preds,
    Forall2 (fun nn p => run_out (process nn (vector [0.5; 0.25]) true) = Ret p)
            [mk_NeuralNetwork [shift_layer 1; two_task_layer];
             mk_NeuralNetwork [shift_layer 2; two_task_layer]] preds
    /\ average_predictions preds
       = Ret (PyTuple [vector [2; 1.75]; vector [3; 2.75]]).
Proof.
  destruct (@multi_task_predictions_average float float64
              [mk_NeuralNetwork [shift_layer 1; two_task_layer];
               mk_NeuralNetwork [shift_layer 2; two_task_layer]]
              [[mk_ndarray [1; 2]%nat [1.5; 1.25];
                mk_ndarray [1; 2]%nat [2.5; 2.25]];
               [mk_ndarray [1; 2]%nat [2.5; 2.25];
                mk_ndarray [1; 2]%nat [3.5; 3.25]]]
              [[2%nat]; [2%nat]] (vector [0.5; 0.25]) true)
    as [preds [H1 [_ H3]]].
  - simpl. lia.
  - repeat constructor.
  - repeat constructor.
  - exists preds. split; [exact H1|exact H3].
Defined.

Lemma load_keeps_order_witness :
  NeuralNetworkEnsemble_load load_example ["shift1.pkl"; "shift2.pkl"]%string
    default_ensemble_fn None
  = Ret (NeuralNetworkEnsemble_init [shift_network 1; shift_network 2]
           default_ensemble_fn None).
Proof.
  destruct (@load_keeps_order float load_example
              ["shift1.pkl"; "shift2.pkl"]%string
              [shift_network 1; shift_network 2] default_ensemble_fn None)
    as [H _].
  - repeat constructor.
  - exact H.
Defined.

Lemma load_fails_witness :
  NeuralNetworkEnsemble_load load_example
    ["shift1.pkl"; "missing.pkl"; "shift2.pkl"]%string default_ensemble_fn None
  = Raise (OtherError "IOError").
Proof.
  apply (@load_fails float load_example ["shift1.pkl"]%string
           ["shift2.pkl"]%string "missing.pkl"%string (OtherError "IOError")).
  - repeat constructor. now exists (shift_network 1).
  - reflexivity.
Defined.
